(** * FactoryLint: the naming-convention linter of [linter.py]

    A shallow embedding of the resource classifier, the rule evaluators,
    the dispatcher, the loading of the abbreviations and the batch run of
    [linter.py], with the part of Python's run-time library they rely on
    ([str] methods, list indexing and slicing, [dict] access, the [re]
    module), followed by the properties of the specification and by
    further properties of the code.

    Conventions of the model.
    - A Python [str] is a [string]: a sequence of code points below 256.
      On that range [str.lower] changes exactly A-Z and the Latin-1
      capitals, [\d] matches exactly 0-9 and [.] everything but the line
      feed.
    - A parsed JSON document is a [json] value; objects are finite maps.
    - A Python call either returns, or raises: [outcome] records which.
      [NotModelled] marks a regular expression written outside the
      fragment of the pattern language that [re.compile] below covers,
      the text of a float, a list or a dict in a message, and a table
      of abbreviations that holds a value other than a string; nothing
      is claimed about such a call. *)

From Stdlib Require Import Ascii String ZArith NArith List Bool Lia.
From stdpp Require Import base tactics option list gmap strings pretty.

Local Open Scope string_scope.

(** ** Outcomes of Python calls *)

Inductive exn : Set :=
  | KeyError
  | TypeError
  | AttributeError
  | IndexError
  | OverflowError
  | re_error.

Inductive outcome (A : Type) : Type :=
  | Ret (a : A)
  | Raise (e : exn)
  | NotModelled.
Arguments Ret {A} a.
Arguments Raise {A} e.
Arguments NotModelled {A}.

#[global] Instance outcome_ret : MRet outcome := @Ret.
#[global] Instance outcome_bind : MBind outcome := λ A B f m,
  match m with
  | Ret a => f a
  | Raise e => Raise e
  | NotModelled => NotModelled
  end.

Definition returns {A} (m : outcome A) : Prop := ∃ a, m = Ret a.
Definition raises {A} (m : outcome A) : Prop := ∃ e, m = Raise e.

(** ** Python [str] *)

Definition newline : ascii := ascii_of_nat 10.

Definition code (c : ascii) : nat := nat_of_ascii c.

Definition between (lo hi : nat) (c : ascii) : bool :=
  (lo <=? code c)%nat && (code c <=? hi)%nat.

(** [c.lower()] on the code points below 256. *)
Definition lower_char (c : ascii) : ascii :=
  if between 65 90 c || between 192 214 c || between 216 222 c
  then ascii_of_nat (code c + 32)
  else c.

Fixpoint lower (s : string) : string :=
  match s with
  | EmptyString => EmptyString
  | String c s' => String (lower_char c) (lower s')
  end.

(** [s.startswith(p)] *)
Definition startswith (s p : string) : bool := String.prefix p s.

(** [s.startswith((p1, ..., pn))] *)
Definition startswith_any (s : string) (ps : list string) : bool :=
  existsb (startswith s) ps.

(** [s.endswith(p)]: some suffix of [s] is [p]. *)
Fixpoint endswith (s p : string) : bool :=
  String.eqb s p ||
  match s with
  | EmptyString => false
  | String _ s' => endswith s' p
  end.

(** [sub in s] *)
Fixpoint contains (s sub : string) : bool :=
  String.prefix sub s ||
  match s with
  | EmptyString => false
  | String _ s' => contains s' sub
  end.

(** [s.split(sep)] for a separator of one character, which is what both
    call sites pass. The result is never empty. *)
Fixpoint split (sep : ascii) (s : string) : list string :=
  match s with
  | EmptyString => [EmptyString]
  | String c s' =>
      if Ascii.eqb c sep then EmptyString :: split sep s'
      else match split sep s' with
           | tok :: toks => String c tok :: toks
           | [] => [String c EmptyString]
           end
  end.

(** [sep.join(l)] *)
Definition join (sep : string) (l : list string) : string := String.concat sep l.

(** ** Python lists *)

(** [l[i]], with negative indices counted from the end. *)
Definition index {A} (l : list A) (i : Z) : outcome A :=
  let n := Z.of_nat (length l) in
  let j := if (i <? 0)%Z then (i + n)%Z else i in
  if (j <? 0)%Z then Raise IndexError
  else match l !! Z.to_nat j with
       | Some x => Ret x
       | None => Raise IndexError
       end.

(** [l[start:stop]]: both bounds are clipped to the list. *)
Definition clip (n i : Z) : Z :=
  if (i <? 0)%Z then Z.max (i + n) 0 else Z.min i n.

Definition slice {A} (l : list A) (start stop : Z) : list A :=
  let n := Z.of_nat (length l) in
  let a := clip n start in
  let b := clip n stop in
  take (Z.to_nat (b - a)) (drop (Z.to_nat a) l).

(** ** The [re] module

    [re.match(pattern, string)] compiles the pattern it is given as a
    string and tries it at the start of [string]. The model covers
    literals, [.], [^], [$], [|], plain groups, character sets of literals
    and ranges, [\d], escaped punctuation and the quantifiers [*], [+],
    [?] and [{m,n}], greedy or lazy. Everything else ([(?...)] groups,
    the other backslash escapes, possessive quantifiers) is [NotModelled].
    Without back-references a match exists if and only if some way of
    reading the pattern consumes a prefix of the text, so matching is
    modelled by the set of positions a pattern can reach. *)

Module re.

Inductive set_item : Set :=
  | SetLiteral (c : ascii)
  | SetRange (lo hi : ascii)
  | CategoryDigit.

Inductive pattern : Set :=
  | LITERAL (c : ascii)
  | ANY
  | IN (negate : bool) (set : list set_item)
  | AT_BEGINNING
  | AT_END
  | SUBPATTERN (p : pattern)
  | REPEAT (greedy : bool) (min : nat) (max : option nat) (p : pattern)
  | EMPTY
  | CAT (p q : pattern)
  | BRANCH (p q : pattern).

(** *** Parsing *)

(** One open group: the alternatives already closed by [|] and the
    items of the alternative being read, both latest first. *)
Record frame : Set := Frame {
  branches : list pattern;
  items : list pattern
}.

Inductive mode : Set :=
  | Normal
  | GroupOpen                 (* just after "(" *)
  | Quantified                (* just after a quantifier *)
  | Escape                    (* just after a backslash *)
  | Brace (lo : string) (hi : option string)   (* after "{", digits so far *)
  | SetOpen                   (* just after "[" *)
  | SetTop (negate : bool) (set : list set_item)
  | SetHave (negate : bool) (set : list set_item) (c : ascii)
  | SetDash (negate : bool) (set : list set_item) (c : ascii).

Record state : Set := State {
  outer : list frame;
  inner : frame;
  md : mode
}.

Definition initial : state := State [] (Frame [] []) Normal.

Definition sequence (its : list pattern) : pattern :=
  fold_left (λ acc it, CAT it acc) its EMPTY.

Definition close (f : frame) : pattern :=
  fold_left (λ acc alt, BRANCH alt acc) (branches f) (sequence (items f)).

Definition push (it : pattern) (st : state) : state :=
  State (outer st) (Frame (branches (inner st)) (it :: items (inner st))) Normal.

Definition literals (s : string) (st : state) : state :=
  fold_left (λ st c, push (LITERAL c) st) (list_ascii_of_string s) st.

Definition MAXREPEAT : N := 4294967295.

Definition DIGITS (c : ascii) : bool := between 48 57 c.

Definition ASCIILETTERS (c : ascii) : bool := between 65 90 c || between 97 122 c.

(** [int(s)] for a string of decimal digits. *)
Definition int (s : string) : N :=
  fold_left (λ n c, (10 * n + N.of_nat (code c - 48))%N) (list_ascii_of_string s) 0%N.

(** Apply a quantifier to the item read last. *)
Definition quantify (min : nat) (max : option nat) (st : state) : outcome state :=
  match items (inner st) with
  | [] => Raise re_error                       (* nothing to repeat *)
  | AT_BEGINNING :: _ | AT_END :: _ => Raise re_error
  | REPEAT _ _ _ _ :: _ => Raise re_error      (* multiple repeat *)
  | it :: its =>
      Ret (State (outer st)
                 (Frame (branches (inner st)) (REPEAT true min max it :: its))
                 Quantified)
  end.

Definition lazy (st : state) : state :=
  match items (inner st) with
  | REPEAT _ min max it :: its =>
      State (outer st) (Frame (branches (inner st)) (REPEAT false min max it :: its)) Normal
  | _ => st
  end.

(** The closing brace of [{lo}], [{lo,hi}], [{lo,}], [{,hi}] or [{,}]. *)
Definition bounds (lo : string) (hi : option string) (st : state) : outcome state :=
  let hi := default lo hi in
  let min := if String.eqb lo EmptyString then 0%N else int lo in
  if negb (String.eqb lo EmptyString) && (MAXREPEAT <=? min)%N then Raise OverflowError
  else if String.eqb hi EmptyString then quantify (N.to_nat min) None st
  else if (MAXREPEAT <=? int hi)%N then Raise OverflowError
  else if (int hi <? min)%N then Raise re_error
  else quantify (N.to_nat min) (Some (N.to_nat (int hi))) st.

(** The characters read after a "{" that turned out not to open a
    quantifier are read again as literals. *)
Definition unbrace (lo : string) (hi : option string) (st : state) : state :=
  literals (match hi with Some h => "{" +:+ lo +:+ "," +:+ h | None => "{" +:+ lo end) st.

Definition ordinary (c : ascii) (st : state) : outcome state :=
  match c with
  | "\"%char => Ret (State (outer st) (inner st) Escape)
  | "["%char => Ret (State (outer st) (inner st) SetOpen)
  | "{"%char => Ret (State (outer st) (inner st) (Brace EmptyString None))
  | "*"%char => quantify 0 None st
  | "+"%char => quantify 1 None st
  | "?"%char => quantify 0 (Some 1) st
  | "."%char => Ret (push ANY st)
  | "^"%char => Ret (push AT_BEGINNING st)
  | "$"%char => Ret (push AT_END st)
  | "|"%char =>
      Ret (State (outer st)
                 (Frame (sequence (items (inner st)) :: branches (inner st)) [])
                 Normal)
  | "("%char => Ret (State (inner st :: outer st) (Frame [] []) GroupOpen)
  | ")"%char =>
      match outer st with
      | [] => Raise re_error                   (* unbalanced parenthesis *)
      | f :: fs =>
          Ret (State fs (Frame (branches f) (SUBPATTERN (close (inner st)) :: items f))
                     Normal)
      end
  | _ => Ret (push (LITERAL c) st)
  end.

Definition set_done (negate : bool) (set : list set_item) (st : state) : state :=
  push (IN negate set) st.

Definition set_top (negate : bool) (set : list set_item) (c : ascii) (st : state)
  : outcome state :=
  match c with
  | "]"%char =>
      match set with
      | [] => Ret (State (outer st) (inner st) (SetHave negate set c))
      | _ => Ret (set_done negate set st)
      end
  | "\"%char => NotModelled
  | _ => Ret (State (outer st) (inner st) (SetHave negate set c))
  end.

Definition step (st : state) (c : ascii) : outcome state :=
  match md st with
  | Normal => ordinary c st
  | GroupOpen =>
      match c with
      | "?"%char => NotModelled
      | _ => ordinary c st
      end
  | Quantified =>
      match c with
      | "?"%char => Ret (lazy st)
      | "+"%char => NotModelled
      | _ => ordinary c st
      end
  | Escape =>
      if Ascii.eqb c "d" then Ret (push (IN false [CategoryDigit]) st)
      else if ASCIILETTERS c || DIGITS c then NotModelled
      else Ret (push (LITERAL c) st)
  | Brace lo hi =>
      if DIGITS c then
        Ret (State (outer st) (inner st)
                   match hi with
                   | None => Brace (lo +:+ String c EmptyString) None
                   | Some h => Brace lo (Some (h +:+ String c EmptyString))
                   end)
      else match c, hi with
           | ","%char, None => Ret (State (outer st) (inner st) (Brace lo (Some EmptyString)))
           | "}"%char, None =>
               if String.eqb lo EmptyString
               then Ret (push (LITERAL "}") (push (LITERAL "{") st))
               else bounds lo hi st
           | "}"%char, Some _ => bounds lo hi st
           | _, _ => ordinary c (unbrace lo hi st)
           end
  | SetOpen =>
      match c with
      | "^"%char => Ret (State (outer st) (inner st) (SetTop true []))
      | _ => set_top false [] c st
      end
  | SetTop negate set => set_top negate set c st
  | SetHave negate set c1 =>
      match c with
      | "-"%char => Ret (State (outer st) (inner st) (SetDash negate set c1))
      | _ => set_top negate (set ++ [SetLiteral c1])%list c st
      end
  | SetDash negate set c1 =>
      match c with
      | "]"%char => Ret (set_done negate (set ++ [SetLiteral c1; SetLiteral "-"])%list st)
      | "\"%char => NotModelled
      | _ =>
          if (code c <? code c1)%nat then Raise re_error   (* bad character range *)
          else Ret (State (outer st) (inner st) (SetTop negate (set ++ [SetRange c1 c])%list))
      end
  end.

Fixpoint steps (st : state) (s : string) : outcome state :=
  match s with
  | EmptyString => Ret st
  | String c s' => st' ← step st c; steps st' s'
  end.

Definition finish (st : state) : outcome pattern :=
  let st :=
    match md st with
    | Brace lo hi => unbrace lo hi st
    | _ => st
    end in
  match md st with
  | Escape => Raise re_error                  (* bad escape (end of pattern) *)
  | SetOpen | SetTop _ _ | SetHave _ _ _ | SetDash _ _ _ =>
      Raise re_error                          (* unterminated character set *)
  | _ =>
      match outer st with
      | [] => Ret (close (inner st))
      | _ :: _ => Raise re_error              (* missing ), unterminated subpattern *)
      end
  end.

(** [re.compile(pattern)] *)
Definition compile (pat : string) : outcome pattern :=
  st ← steps initial pat; finish st.

(** *** Matching *)

(** Where the engine stands in the text: how many characters lie
    behind it and what is still ahead. *)
Definition cursor : Set := nat * string.

Definition in_item (c : ascii) (it : set_item) : bool :=
  match it with
  | SetLiteral x => Ascii.eqb c x
  | SetRange lo hi => between (code lo) (code hi) c
  | CategoryDigit => DIGITS c
  end.

Definition one (ok : ascii → bool) (cur : cursor) : list cursor :=
  match cur.2 with
  | String c rest => if ok c then [(S cur.1, rest)] else []
  | EmptyString => []
  end.

(** [repeat body fuel min max cur]: the cursors reached from [cur] by
    between [min] and [max] rounds of [body], at most [fuel] of them. *)
Definition repeat (body : cursor → list cursor) : nat → nat → option nat → cursor → list cursor :=
  fix go fuel min max cur :=
    ((match min with 0 => [cur] | S _ => [] end) ++
     match fuel with
     | 0 => []
     | S fuel' =>
         match max with
         | Some 0 => []
         | _ => flat_map (go fuel' (pred min) (pred <$> max)) (body cur)
         end
     end)%list.

(** The cursors at which a match of [p] started at [cur] can end. A
    round of a repetition that consumes nothing leads nowhere new, so
    [min] rounds and one per remaining character are enough. *)
Fixpoint ends (p : pattern) (cur : cursor) : list cursor :=
  match p with
  | LITERAL c => one (Ascii.eqb c) cur
  | ANY => one (λ x, negb (Ascii.eqb x newline)) cur
  | IN negate set => one (λ x, xorb negate (existsb (in_item x) set)) cur
  | AT_BEGINNING => match cur.1 with 0 => [cur] | S _ => [] end
  | AT_END =>
      match cur.2 with
      | EmptyString => [cur]
      | String c EmptyString => if Ascii.eqb c newline then [cur] else []
      | _ => []
      end
  | SUBPATTERN p => ends p cur
  | REPEAT _ min max p => repeat (ends p) (min + String.length cur.2) min max cur
  | EMPTY => [cur]
  | CAT p q => flat_map (ends q) (ends p cur)
  | BRANCH p q => (ends p cur ++ ends q cur)%list
  end.

Definition matches (p : pattern) (s : string) : bool :=
  match ends p (0, s) with
  | [] => false
  | _ :: _ => true
  end.

(** [re.match(pattern, string) is not None] *)
Definition match_ (pat : string) (s : string) : outcome bool :=
  p ← compile pat; Ret (matches p s).

End re.

(** ** Parsed JSON

    What [json.load] returns. A float is kept as the 64 bits of its
    IEEE-754 double: the linter never computes with numbers. *)

#[warnings="-register-all"]
Inductive json : Type :=
  | JNull
  | JBool (b : bool)
  | JInt (n : Z)
  | JFloat (bits : Z)
  | JStr (s : string)
  | JArr (l : list json)
  | JObj (m : gmap string json).

Coercion JStr : string >-> json.

(** [v == s] for a string [s] *)
Definition eq_str (v : json) (s : string) : bool :=
  match v with
  | JStr t => String.eqb t s
  | _ => false
  end.

(** [v.lower()] *)
Definition str_lower (v : json) : outcome string :=
  match v with
  | JStr s => Ret (lower s)
  | _ => Raise AttributeError
  end.

(** [k in v]: a key of a dict, an element of a list, a substring of a
    string; the other values are not containers. *)
Definition key_in (k : string) (v : json) : outcome bool :=
  match v with
  | JObj m => Ret (bool_decide (is_Some (m !! k)))
  | JArr l => Ret (existsb (λ x, eq_str x k) l)
  | JStr s => Ret (contains s k)
  | JNull | JBool _ | JInt _ | JFloat _ => Raise TypeError
  end.

(** [d[k]] on a dict *)
Definition getitem (d : gmap string json) (k : string) : outcome json :=
  match d !! k with
  | Some v => Ret v
  | None => Raise KeyError
  end.

(** [v[k]] for a string [k] on any value: only a dict can be indexed by a
    string. *)
Definition subscript (v : json) (k : string) : outcome json :=
  match v with
  | JObj m => getitem m k
  | _ => Raise TypeError
  end.

(** [d.get(v)] on a dict with string keys: a list or a dict cannot be
    hashed, any other value that is not a string is simply not a key. *)
Definition dict_get {A} (d : gmap string A) (v : json) : outcome (option A) :=
  match v with
  | JStr s => Ret (d !! s)
  | JArr _ | JObj _ => Raise TypeError
  | JNull | JBool _ | JInt _ | JFloat _ => Ret None
  end.

(** [f"{v}"]. The text of a float, a list or a dict is not modelled. *)
Definition format (v : json) : outcome string :=
  match v with
  | JStr s => Ret s
  | JNull => Ret "None"
  | JBool true => Ret "True"
  | JBool false => Ret "False"
  | JInt n => Ret (pretty n)
  | JFloat _ | JArr _ | JObj _ => NotModelled
  end.

(** ** Module globals *)

(** [ABBREVIATIONS], built when the module is loaded from
    [system_abbreviations.json], a file that is not part of the sources:
    the table is a parameter of every function of the module. Its entries
    are taken to be strings. *)
Record abbreviations : Set := {
  LinkedService : list string;
  Dataset : list string
}.

Definition FORMAT_MAPPING : gmap string string :=
  list_to_map [
    ("DelimitedText", "CSV");
    ("AzureSqlTable", "TABLE");
    ("Parquet", "PARQUET");
    ("Json", "JSON");
    ("Excel", "EXCEL");
    ("Avro", "AVRO");
    ("Binary", "BIN");
    ("XML", "XML");
    ("Orc", "ORC")
  ].

(** ** Violation messages *)

Definition msg_ls_prefix : string := "Linked Service must start with 'LS_'".

Definition msg_ls_unknown (ls_name : string) : string :=
  "Linked Service '" +:+ ls_name +:+ "' does not match known prefixes".

Definition msg_ds_prefix : string := "Dataset must start with 'DS_'".

Definition msg_ds_suffix (ds_name expected_format : string) : string :=
  "Dataset '" +:+ ds_name +:+ "' must end with format suffix '_" +:+ expected_format +:+ "'".

Definition msg_ds_detail (detail_part : string) : string :=
  "Dataset detail part '" +:+ detail_part
  +:+ "' must be uppercase letters, numbers or underscores only".

Definition msg_sub_master (pipeline_name : string) : string :=
  "Sub-pipeline '" +:+ pipeline_name +:+ "' should not include 'Master' in its name".

Definition msg_pipeline (pipeline_name : string) : string :=
  "Pipeline '" +:+ pipeline_name
  +:+ "' must follow naming conventions for Master or Sub-pipelines".

Definition msg_schedule (trigger_name : string) : string :=
  "Scheduled trigger '" +:+ trigger_name
  +:+ "' must start with frequency (Daily/Hourly/Weekly/Monthly)".

Definition msg_file (trigger_name : string) : string :=
  "File trigger '" +:+ trigger_name +:+ "' must start with 'File-'".

Definition msg_not_formatted (trigger_name : string) : string :=
  "Trigger '" +:+ trigger_name +:+ "' is not properly formatted".

Definition msg_no_match (trigger_name pattern : string) : string :=
  "Trigger '" +:+ trigger_name +:+ "' does not match required pattern '"
  +:+ pattern +:+ "'".

Definition msg_key_vault (kv_name kv_type : string) : string :=
  "Key Vault '" +:+ kv_name +:+ "' type '" +:+ kv_type
  +:+ "' is invalid. Must be username/password/url".

Definition msg_unknown (name : string) : string :=
  "Unknown resource type for " +:+ name.

(** [errors.append(msg)] when [cond] holds *)
Definition append_if (cond : bool) (msg : string) (errors : list string) : list string :=
  if cond then (errors ++ [msg])%list else errors.

(** ** The rule evaluators

    Python does not enforce the [str] annotations, and the dispatcher
    passes whatever the document holds: each evaluator takes [json]
    values. Where the name is not a string, the first thing the body does
    with it raises, as noted at each definition. *)

(** A name that is not a string has no [startswith]. *)
Definition lint_linked_service (ABBREVIATIONS : abbreviations) (ls_name : json)
  : outcome (list string) :=
  match ls_name with
  | JStr ls_name =>
      let errors : list string := [] in
      let errors :=
        append_if (negb (startswith ls_name "LS_")) msg_ls_prefix errors in
      let errors :=
        append_if (negb (existsb (λ prefix, startswith ls_name prefix)
                                 (LinkedService ABBREVIATIONS)))
                  (msg_ls_unknown ls_name) errors in
      Ret errors
  | _ => Raise AttributeError
  end.

Definition detail_pattern : string := "^[A-Z0-9_]+$".

(** A name that is not a string has no [startswith]. *)
Definition lint_dataset (ABBREVIATIONS : abbreviations) (ds_name dataset_type : json)
  : outcome (list string) :=
  match ds_name with
  | JStr ds_name =>
      let errors : list string := [] in
      let errors := append_if (negb (startswith ds_name "DS_")) msg_ds_prefix errors in
      expected_format ← dict_get FORMAT_MAPPING dataset_type;
      let errors :=
        match expected_format with
        | Some expected_format =>
            append_if (negb (String.eqb expected_format EmptyString)
                       && negb (endswith ds_name ("_" +:+ expected_format)))
                      (msg_ds_suffix ds_name expected_format) errors
        | None => errors
        end in
      let detail_part := join "_" (slice (split "_" ds_name) 2 (-1)) in
      m ← re.match_ detail_pattern detail_part;
      Ret (append_if (negb m) (msg_ds_detail detail_part) errors)
  | _ => Raise AttributeError
  end.

Definition master_pattern : string :=
  "^\d{3}_00_Master(_[A-Za-z0-9_]+)?_[A-Za-z0-9_]+$".

Definition sub_pattern : string :=
  "^\d{3}_(0[1-9]|[1-9][0-9])(_[A-Za-z0-9_]+)?_[A-Za-z0-9_]+$".

(** [re.match] compiles its pattern and then rejects a subject that is
    not a string. *)
Definition lint_pipeline (ABBREVIATIONS : abbreviations) (pipeline_name : json)
  : outcome (list string) :=
  match pipeline_name with
  | JStr pipeline_name =>
      let errors : list string := [] in
      is_master ← re.match_ master_pattern pipeline_name;
      if (is_master : bool) then Ret errors
      else
        is_sub ← re.match_ sub_pattern pipeline_name;
        if (is_sub : bool) then
          Ret (append_if (contains pipeline_name "Master")
                         (msg_sub_master pipeline_name) errors)
        else Ret (errors ++ [msg_pipeline pipeline_name])%list
  | _ => re.compile master_pattern;; Raise TypeError
  end.

Definition trigger_pattern (project_name pipeline_name : string) : string :=
  "^(Daily|Hourly|Weekly|Monthly|File)-" +:+ project_name +:+ "-" +:+ pipeline_name +:+ "$".

(** A name that is not a string has neither [startswith] nor [split];
    comparing the type with a string never raises. *)
Definition lint_trigger (ABBREVIATIONS : abbreviations) (trigger_name trigger_type : json)
  : outcome (list string) :=
  match trigger_name with
  | JStr trigger_name =>
      let errors : list string := [] in
      let errors :=
        append_if (eq_str trigger_type "ScheduleTrigger"
                   && negb (startswith_any trigger_name
                              ["Daily-"; "Hourly-"; "Weekly-"; "Monthly-"]))
                  (msg_schedule trigger_name) errors in
      let errors :=
        append_if (eq_str trigger_type "BlobEventsTrigger"
                   && negb (startswith trigger_name "File-"))
                  (msg_file trigger_name) errors in
      match
        project_name ← index (split "-" trigger_name) 1;
        pipeline_name ← index (split "-" trigger_name) (-1);
        Ret (project_name, pipeline_name)
      with
      | Raise IndexError => Ret (errors ++ [msg_not_formatted trigger_name])%list
      | Raise e => Raise e
      | NotModelled => NotModelled
      | Ret (project_name, pipeline_name) =>
          let pattern := trigger_pattern project_name pipeline_name in
          m ← re.match_ pattern trigger_name;
          Ret (append_if (negb m) (msg_no_match trigger_name pattern) errors)
      end
  | _ => Raise AttributeError
  end.

(** The message formats both arguments; only the type is inspected. *)
Definition lint_key_vault (ABBREVIATIONS : abbreviations) (kv_name kv_type : json)
  : outcome (list string) :=
  let errors : list string := [] in
  lowered ← str_lower kv_type;
  if negb (existsb (String.eqb lowered) ["username"; "password"; "url"]) then
    name ← format kv_name;
    ty ← format kv_type;
    Ret (errors ++ [msg_key_vault name ty])%list
  else Ret errors.


(** ** The classifier *)

Inductive ADFResourceType : Set :=
  | PIPELINE
  | DATASET
  | LINKED_SERVICE
  | TRIGGER
  | UNKNOWN.

(** [str(resource_type)], what [print] writes *)
Definition ADFResourceType_str (t : ADFResourceType) : string :=
  match t with
  | PIPELINE => "ADFResourceType.PIPELINE"
  | DATASET => "ADFResourceType.DATASET"
  | LINKED_SERVICE => "ADFResourceType.LINKED_SERVICE"
  | TRIGGER => "ADFResourceType.TRIGGER"
  | UNKNOWN => "ADFResourceType.UNKNOWN"
  end.

(** [a in props and b in props] *)
Definition both_in (a b : string) (props : json) : outcome bool :=
  has_a ← key_in a props;
  if (has_a : bool) then key_in b props else Ret false.

Definition identify_adf_resource (resource_json : gmap string json)
  : outcome ADFResourceType :=
  top_type ← str_lower (default (JStr EmptyString) (resource_json !! "type"));
  if endswith top_type "/pipelines" then Ret PIPELINE
  else if endswith top_type "/datasets" then Ret DATASET
  else if endswith top_type "/linkedservices" then Ret LINKED_SERVICE
  else if endswith top_type "/triggers" then Ret TRIGGER
  else
    let props := default (JObj ∅) (resource_json !! "properties") in
    is_pipeline ← key_in "activities" props;
    if (is_pipeline : bool) then Ret PIPELINE
    else
      is_dataset ← both_in "typeProperties" "linkedServiceName" props;
      if (is_dataset : bool) then Ret DATASET
      else
        is_linked_service ← both_in "connectVia" "type" props;
        if (is_linked_service : bool) then Ret LINKED_SERVICE
        else
          is_trigger ← both_in "pipelines" "type" props;
          if (is_trigger : bool) then Ret TRIGGER
          else Ret UNKNOWN.

(** ** The dispatcher

    [lint_resource] prints the kind it found before it dispatches: the
    model returns the lines written to standard output next to the
    outcome of the call. The arguments of an evaluator are evaluated left
    to right before it is entered. *)

Definition dispatch (ABBREVIATIONS : abbreviations) (resource_type : ADFResourceType)
    (resource_json : gmap string json) : outcome (list string) :=
  match resource_type with
  | PIPELINE =>
      name ← getitem resource_json "name";
      lint_pipeline ABBREVIATIONS name
  | DATASET =>
      name ← getitem resource_json "name";
      properties ← getitem resource_json "properties";
      type ← subscript properties "type";
      lint_dataset ABBREVIATIONS name type
  | LINKED_SERVICE =>
      name ← getitem resource_json "name";
      lint_linked_service ABBREVIATIONS name
  | TRIGGER =>
      name ← getitem resource_json "name";
      properties ← getitem resource_json "properties";
      type ← subscript properties "type";
      lint_trigger ABBREVIATIONS name type
  | UNKNOWN =>
      name ← format (default (JStr "N/A") (resource_json !! "name"));
      Ret [msg_unknown name]
  end.

Definition lint_resource (ABBREVIATIONS : abbreviations) (resource_json : gmap string json)
  : list string * outcome (list string) :=
  match identify_adf_resource resource_json with
  | Ret resource_type =>
      ([ADFResourceType_str resource_type],
       dispatch ABBREVIATIONS resource_type resource_json)
  | Raise e => ([], Raise e)
  | NotModelled => ([], NotModelled)
  end.

(** ** Loading the abbreviations

    When the module is loaded it reads [system_abbreviations.json] and
    keeps the [Abbreviation] of every entry of its two lists. The model
    starts from [abbreviation], the value that [json.load] returns. *)

(** [[entry["Abbreviation"] for entry in l]] on a list *)
Fixpoint comprehension (l : list json) : outcome (list json) :=
  match l with
  | [] => Ret []
  | entry :: l =>
      a ← subscript entry "Abbreviation";
      rest ← comprehension l;
      Ret (a :: rest)
  end.

(** [[entry["Abbreviation"] for entry in entries]]: a dict yields its
    keys and a string its characters, which are strings and cannot be
    indexed by a string, so that only an empty one goes through; the
    other values cannot be iterated. *)
Definition abbreviations_of (entries : json) : outcome (list json) :=
  match entries with
  | JArr l => comprehension l
  | JObj m =>
      match map_to_list m with
      | [] => Ret []
      | _ :: _ => Raise TypeError
      end
  | JStr s =>
      match s with
      | EmptyString => Ret []
      | String _ _ => Raise TypeError
      end
  | JNull | JBool _ | JInt _ | JFloat _ => Raise TypeError
  end.

(** The strings of a list of strings. *)
Fixpoint strings (l : list json) : option (list string) :=
  match l with
  | [] => Some []
  | JStr s :: l => (λ rest, s :: rest) <$> strings l
  | _ :: _ => None
  end.

(** The table that the module builds. Python keeps an [Abbreviation]
    of any type; the table of the model holds strings, and a file with
    another value is not modelled. *)
Definition load_ABBREVIATIONS (abbreviation : json) : outcome abbreviations :=
  entries ← subscript abbreviation "LinkedService";
  linked_service ← abbreviations_of entries;
  entries ← subscript abbreviation "Dataset";
  dataset ← abbreviations_of entries;
  match strings linked_service, strings dataset with
  | Some linked_service, Some dataset =>
      Ret {| LinkedService := linked_service; Dataset := dataset |}
  | _, _ => NotModelled
  end.

(** ** The batch run

    Run as a script, the module lints every file of the pipeline
    directory and prints a report. The model takes the files in the
    order of [os.listdir], each with the value that [json.load] returns
    for it, and gives the lines written to standard output next to the
    outcome: an exception ends the run. *)

(** ['-' * 40] *)
Definition separator : string := string_of_list_ascii (replicate 40 "-"%char).

(** The lines of [for i, error in enumerate(errors, start=i)] *)
Fixpoint error_lines (i : nat) (errors : list string) : list string :=
  match errors with
  | [] => []
  | error :: errors =>
      ("Error " +:+ pretty i +:+ ": " +:+ error) :: error_lines (S i) errors
  end.

(** The body of the loop, on one file: the lines it prints, and the
    number of violations that it adds to [total_counter]. A value that is
    not a dict has no [get]. *)
Definition loop_body (ABBREVIATIONS : abbreviations) (file : string * json)
  : list string * outcome nat :=
  let '(pipeline, resource_json) := file in
  let out := ["Processing pipeline: " +:+ pipeline] in
  match resource_json with
  | JObj resource_json =>
      match identify_adf_resource resource_json with
      | Ret type =>
          let out := (out ++ ["Type: " +:+ ADFResourceType_str type])%list in
          let '(printed, result) := lint_resource ABBREVIATIONS resource_json in
          let out := (out ++ printed)%list in
          match result with
          | Ret errors =>
              ((out ++ ["Errors found: " +:+ pretty (length errors)]
                    ++ error_lines 1 errors ++ [separator])%list,
               Ret (length errors))
          | Raise e => (out, Raise e)
          | NotModelled => (out, NotModelled)
          end
      | Raise e => (out, Raise e)
      | NotModelled => (out, NotModelled)
      end
  | _ => (out, Raise AttributeError)
  end.

(** The loop, from the counter [total_counter] on. *)
Fixpoint loop (ABBREVIATIONS : abbreviations) (files : list (string * json))
    (total_counter : nat) : list string * outcome nat :=
  match files with
  | [] => ([], Ret total_counter)
  | file :: files =>
      let '(out, result) := loop_body ABBREVIATIONS file in
      match result with
      | Ret n =>
          let '(out', result') := loop ABBREVIATIONS files (total_counter + n) in
          ((out ++ out')%list, result')
      | Raise e => (out, Raise e)
      | NotModelled => (out, NotModelled)
      end
  end.

Definition total_line (total_counter : nat) : string :=
  "Total errors found so far: " +:+ pretty total_counter.

Definition main (ABBREVIATIONS : abbreviations) (files : list (string * json))
  : list string * outcome unit :=
  let '(out, result) := loop ABBREVIATIONS files 0 in
  match result with
  | Ret total_counter =>
      ((separator :: out ++ [total_line total_counter])%list, Ret ())
  | Raise e => (separator :: out, Raise e)
  | NotModelled => (separator :: out, NotModelled)
  end.


(** ** Vocabulary of the statements *)

(** A table with no abbreviation at all. *)
Definition no_abbreviations : abbreviations :=
  {| LinkedService := []; Dataset := [] |}.

(** The characters that [re.ordinary] does not read as themselves. *)
Definition special (c : ascii) : bool :=
  existsb (Ascii.eqb c) (list_ascii_of_string "\[{*+?.^$|()").

Definition hyphen : ascii := "-"%char.

(** A token that holds neither a hyphen nor a special character. *)
Definition plain (s : string) : bool :=
  forallb (λ c, negb (special c) && negb (Ascii.eqb c hyphen)) (list_ascii_of_string s).

(** A token without hyphen, as [split] on hyphens yields them. *)
Definition hyphen_free (s : string) : bool :=
  forallb (λ c, negb (Ascii.eqb c hyphen)) (list_ascii_of_string s).

Definition frequencies : list string := ["Daily"; "Hourly"; "Weekly"; "Monthly"; "File"].

(** [frequency-project-pipeline] *)
Definition three_tokens (frequency project pipeline : string) : string :=
  frequency +:+ "-" +:+ project +:+ "-" +:+ pipeline.

(** What checks 1 and 2 of [lint_trigger] report. *)
Definition prefix_errors (trigger_name : string) (trigger_type : json) : list string :=
  append_if (eq_str trigger_type "BlobEventsTrigger"
             && negb (startswith trigger_name "File-"))
            (msg_file trigger_name)
    (append_if (eq_str trigger_type "ScheduleTrigger"
                && negb (startswith_any trigger_name
                           ["Daily-"; "Hourly-"; "Weekly-"; "Monthly-"]))
               (msg_schedule trigger_name) []).

(** The document lacks a field that the evaluator of its kind is handed. *)
Definition lacks_required_field (kind : ADFResourceType) (doc : gmap string json) : bool :=
  match kind with
  | PIPELINE | LINKED_SERVICE => bool_decide (doc !! "name" = None)
  | DATASET | TRIGGER =>
      bool_decide (doc !! "name" = None)
      || match doc !! "properties" with
         | None => true
         | Some (JObj m) => bool_decide (m !! "type" = None)
         | Some _ => false
         end
  | UNKNOWN => false
  end.

Definition arm_suffix (top_type : string) : bool :=
  endswith top_type "/pipelines" || endswith top_type "/datasets"
  || endswith top_type "/linkedservices" || endswith top_type "/triggers".

(** The values that [in] can search. *)
Definition is_container (v : json) : bool :=
  match v with
  | JObj _ | JArr _ | JStr _ => true
  | JNull | JBool _ | JInt _ | JFloat _ => false
  end.

(** The documents on which the classifier returns: [type] is absent or a
    string, and [properties], where it is consulted, is absent or a
    container. *)
Definition classifiable (doc : gmap string json) : bool :=
  match default (JStr EmptyString) (doc !! "type") with
  | JStr t =>
      arm_suffix (lower t) || is_container (default (JObj ∅) (doc !! "properties"))
  | _ => false
  end.

Definition has_key (k : string) (m : gmap string json) : bool :=
  bool_decide (is_Some (m !! k)).

(** The documents that offer the classifier nothing: no [type] with one
    of the four suffixes, and no [properties] with the keys of a kind. *)
Definition no_expected_field (doc : gmap string json) : bool :=
  match doc !! "type" with
  | None => true
  | Some (JStr t) => negb (arm_suffix (lower t))
  | Some _ => false
  end
  && match doc !! "properties" with
     | None => true
     | Some (JObj m) =>
         negb (has_key "activities" m)
         && negb (has_key "typeProperties" m && has_key "linkedServiceName" m)
         && negb (has_key "connectVia" m && has_key "type" m)
         && negb (has_key "pipelines" m && has_key "type" m)
     | Some _ => false
     end.

(** Sample documents. *)
Definition doc_dataset_without_type : gmap string json :=
  {[ "type" := JStr "Microsoft.DataFactory/factories/datasets";
     "name" := JStr "DS_SQL_CUSTOMERS_CSV";
     "properties" := JObj ∅ ]}.

Definition doc_pipeline_without_name : gmap string json :=
  {[ "properties" := JObj {[ "activities" := JArr [] ]} ]}.

Definition doc_numeric_type : gmap string json :=
  {[ "type" := JInt 5 ]}.

Definition doc_null_properties : gmap string json :=
  {[ "properties" := JNull ]}.

Definition doc_arm_pipeline : gmap string json :=
  {[ "type" := JStr "Microsoft.DataFactory/factories/Pipelines";
     "properties" := JNull ]}.

Definition doc_raw_trigger : gmap string json :=
  {[ "name" := JStr "Daily-SAPBW-hilan";
     "properties" := JObj {[ "type" := JStr "ScheduleTrigger"; "pipelines" := JArr [] ]} ]}.

(** Sample names. *)
Definition name_foo : string := "Foo-bar-baz".
Definition name_plus : string := "Daily-a+b-c".
Definition name_four : string := "Daily-a-b-c".

(** The literals of [s], then [r]. *)
Definition cat_word (s : string) (r : re.pattern) : re.pattern :=
  fold_right (λ c acc, re.CAT (re.LITERAL c) acc) r (list_ascii_of_string s).

(** What [re.compile] makes of the patterns of [lint_pipeline]. *)
Definition digit : re.pattern := re.IN false [re.CategoryDigit].

Definition name_char : re.pattern :=
  re.IN false [re.SetRange "A" "Z"; re.SetRange "a" "z"; re.SetRange "0" "9";
               re.SetLiteral "_"].

(** [(_[A-Za-z0-9_]+)?_[A-Za-z0-9_]+$] *)
Definition segments : re.pattern :=
  re.CAT (re.REPEAT true 0 (Some 1)
            (re.SUBPATTERN
               (re.CAT (re.LITERAL "_") (re.CAT (re.REPEAT true 1 None name_char) re.EMPTY))))
    (re.CAT (re.LITERAL "_")
       (re.CAT (re.REPEAT true 1 None name_char) (re.CAT re.AT_END re.EMPTY))).

Definition master_re : re.pattern :=
  re.CAT re.AT_BEGINNING
    (re.CAT (re.REPEAT true 3 (Some 3) digit) (cat_word "_00_Master" segments)).

(** [(0[1-9]|[1-9][0-9])] *)
Definition sequence_number : re.pattern :=
  re.SUBPATTERN
    (re.BRANCH
       (re.CAT (re.LITERAL "0") (re.CAT (re.IN false [re.SetRange "1" "9"]) re.EMPTY))
       (re.CAT (re.IN false [re.SetRange "1" "9"])
          (re.CAT (re.IN false [re.SetRange "0" "9"]) re.EMPTY))).

Definition sub_re : re.pattern :=
  re.CAT re.AT_BEGINNING
    (re.CAT (re.REPEAT true 3 (Some 3) digit)
       (re.CAT (re.LITERAL "_") (re.CAT sequence_number segments))).

(** What [re.compile] makes of the pattern of [lint_trigger] when both
    tokens are plain. *)
Definition frequency_re : re.pattern :=
  re.SUBPATTERN
    (re.BRANCH (cat_word "Daily" re.EMPTY)
       (re.BRANCH (cat_word "Hourly" re.EMPTY)
          (re.BRANCH (cat_word "Weekly" re.EMPTY)
             (re.BRANCH (cat_word "Monthly" re.EMPTY) (cat_word "File" re.EMPTY))))).

Definition trigger_re (project_name pipeline_name : string) : re.pattern :=
  re.CAT re.AT_BEGINNING
    (re.CAT frequency_re
       (re.CAT (re.LITERAL hyphen)
          (cat_word project_name
             (re.CAT (re.LITERAL hyphen)
                (cat_word pipeline_name (re.CAT re.AT_END re.EMPTY)))))).

(** The names made of a frequency word and two more tokens. *)
Definition well_formed_trigger (trigger_name : string) : bool :=
  match split hyphen trigger_name with
  | [frequency; _; _] => existsb (String.eqb frequency) frequencies
  | _ => false
  end.

(** What [lint_pipeline] returns, from the verdicts of its two patterns. *)
Definition pipeline_errors (is_master is_sub : bool) (pipeline_name : string)
  : list string :=
  if is_master || is_sub then
    if is_sub && contains pipeline_name "Master"
    then [msg_sub_master pipeline_name]
    else []
  else [msg_pipeline pipeline_name].

(** [after c c']: the cursor [c'] lies at or behind [c] in the same
    text. *)
Definition after (c c' : re.cursor) : Prop :=
  ∃ w, c.2 = w +:+ c'.2 ∧ c'.1 = (c.1 + String.length w)%nat.

(** [bound_le max max']: the bound [max'] allows at least the rounds
    that [max] allows; [None] is no bound. *)
Definition bound_le (max max' : option nat) : Prop :=
  match max, max' with
  | _, None => True
  | Some a, Some b => (a ≤ b)%nat
  | None, Some _ => False
  end.

(** [k] rounds of [body], one after the other. *)
Fixpoint rounds (body : re.cursor → list re.cursor) (k : nat) (c : re.cursor)
  : list re.cursor :=
  match k with
  | 0 => [c]
  | S k => flat_map (rounds body k) (body c)
  end.

(** [k] rounds are within the bound [max]. *)
Definition within (k : nat) (max : option nat) : Prop :=
  match max with
  | None => True
  | Some m => (k ≤ m)%nat
  end.

(** ** Vocabulary of the further properties *)

(** A text without the separator [sep], as [split] yields them. *)
Definition free (sep : ascii) (s : string) : bool :=
  forallb (λ c, negb (Ascii.eqb c sep)) (list_ascii_of_string s).

Definition underscore : ascii := "_"%char.

(** The characters that a set of a pattern admits. *)
Definition admits (set : list re.set_item) (c : ascii) : bool :=
  existsb (re.in_item c) set.

(** A text made of characters of [set] only. *)
Definition all_in (set : list re.set_item) (s : string) : bool :=
  forallb (admits set) (list_ascii_of_string s).

(** Nothing, or one line feed: what [$] leaves unread. *)
Definition line_end (s : string) : bool :=
  String.eqb s EmptyString || String.eqb s (String newline EmptyString).

(** The sets of the three fixed patterns. *)
Definition detail_set : list re.set_item :=
  [re.SetRange "A" "Z"; re.SetRange "0" "9"; re.SetLiteral "_"].

Definition name_set : list re.set_item :=
  [re.SetRange "A" "Z"; re.SetRange "a" "z"; re.SetRange "0" "9"; re.SetLiteral "_"].

(** What [re.compile] makes of the pattern of [lint_dataset]. *)
Definition detail_re : re.pattern :=
  re.CAT re.AT_BEGINNING
    (re.CAT (re.REPEAT true 1 None (re.IN false detail_set)) (re.CAT re.AT_END re.EMPTY)).

(** A text of decimal digits. *)
Definition digits (s : string) : bool :=
  forallb re.DIGITS (list_ascii_of_string s).

(** The two digits [01] to [99]. *)
Definition sequence_digits (n1 n2 : ascii) : bool :=
  (Ascii.eqb n1 "0" && between 49 57 n2) || (between 49 57 n1 && between 48 57 n2).

(** A detail segment that [lint_dataset] lets pass: a non-empty text of
    capitals, digits and underscores, and at most a line feed. *)
Definition detail_ok (detail_part : string) : Prop :=
  ∃ w tail, detail_part = w +:+ tail ∧ w ≠ EmptyString
            ∧ all_in detail_set w = true ∧ line_end tail = true.

(** The suffix that a format type asks for, if any. *)
Definition format_ok (dataset_type format : string) : Prop :=
  match FORMAT_MAPPING !! dataset_type with
  | Some expected_format => format = expected_format
  | None => True
  end.

(** An abbreviation that a name starting with [LS_] can start with: it
    starts with [LS_] itself, or is the beginning of it. *)
Definition fits_LS (prefix : string) : bool :=
  startswith prefix "LS_" || startswith "LS_" prefix.

(** The frequency words that a trigger of the given type may start
    with. *)
Definition allowed_frequencies (trigger_type : json) : list string :=
  if eq_str trigger_type "ScheduleTrigger" then ["Daily"; "Hourly"; "Weekly"; "Monthly"]
  else if eq_str trigger_type "BlobEventsTrigger" then ["File"]
  else frequencies.

(** The kinds of secret that [lint_key_vault] knows. *)
Definition secret_kinds : list string := ["username"; "password"; "url"].

(** The suffixes of the [type] of an ARM export, with the kind each one
    stands for. *)
Definition arm_kinds : list (string * ADFResourceType) :=
  [("/pipelines", PIPELINE); ("/datasets", DATASET);
   ("/linkedservices", LINKED_SERVICE); ("/triggers", TRIGGER)].

(** The keys of [properties] that stand for a kind. *)
Definition shape_keys : list (string * string * ADFResourceType) :=
  [("activities", "activities", PIPELINE);
   ("typeProperties", "linkedServiceName", DATASET);
   ("connectVia", "type", LINKED_SERVICE);
   ("pipelines", "type", TRIGGER)].

(** The document carries the mark of the kind: the suffix of the kind at
    the end of its [type], or the keys of the kind in its [properties]. *)
Definition marked (kind : ADFResourceType) (doc : gmap string json) : Prop :=
  (∃ t suffix, doc !! "type" = Some (JStr t)
     ∧ In (suffix, kind) arm_kinds ∧ endswith (lower t) suffix = true)
  ∨ (∃ props a b, doc !! "properties" = Some props
       ∧ In (a, b, kind) shape_keys
       ∧ key_in a props = Ret true ∧ key_in b props = Ret true).

(** The values that can be looked up in a dict. *)
Definition hashable (v : json) : bool :=
  match v with
  | JArr _ | JObj _ => false
  | JNull | JBool _ | JInt _ | JFloat _ | JStr _ => true
  end.

Definition is_str (v : option json) : bool :=
  match v with
  | Some (JStr _) => true
  | _ => false
  end.

(** The document holds what the evaluator of its kind is handed, of the
    type it can work on: a string for [name], and for a Dataset or a
    Trigger a dict for [properties] with a [type], which for a Dataset can
    be looked up in [FORMAT_MAPPING]. *)
Definition dispatchable (kind : ADFResourceType) (doc : gmap string json) : bool :=
  match kind with
  | PIPELINE | LINKED_SERVICE => is_str (doc !! "name")
  | DATASET =>
      is_str (doc !! "name")
      && match doc !! "properties" with
         | Some (JObj m) =>
             match m !! "type" with
             | Some dataset_type => hashable dataset_type
             | None => false
             end
         | _ => false
         end
  | TRIGGER =>
      is_str (doc !! "name")
      && match doc !! "properties" with
         | Some (JObj m) => has_key "type" m
         | _ => false
         end
  | UNKNOWN => true
  end.

(** The entry gives the abbreviation [a]. *)
Definition gives (entry : json) (a : string) : Prop :=
  subscript entry "Abbreviation" = Ret (JStr a).

(** What a list of the file must be for the table to hold [table]: a
    list of entries that give its abbreviations one by one, or, for the
    empty table, an empty dict or an empty string. *)
Definition gives_all (entries : json) (table : list string) : Prop :=
  match entries with
  | JArr l => Forall2 gives l table
  | JObj m => m = ∅ ∧ table = []
  | JStr s => s = EmptyString ∧ table = []
  | JNull | JBool _ | JInt _ | JFloat _ => False
  end.

(** The file, written back from a table: a dict of two lists of entries
    that hold nothing but their abbreviation. *)
Definition entry_of (a : string) : json :=
  JObj {[ "Abbreviation" := JStr a ]}.

Definition file_of (table : abbreviations) : json :=
  JObj {[ "LinkedService" := JArr (entry_of <$> LinkedService table);
          "Dataset" := JArr (entry_of <$> Dataset table) ]}.

(** The file holds a document on which [lint_resource] returns
    [errors]. *)
Definition linted (ABBREVIATIONS : abbreviations) (file : string * json)
    (errors : list string) : Prop :=
  ∃ doc, file.2 = JObj doc ∧ (lint_resource ABBREVIATIONS doc).2 = Ret errors.

(** The file holds a document on which [lint_resource] raises [e]. *)
Definition fails (ABBREVIATIONS : abbreviations) (file : string * json) (e : exn) : Prop :=
  ∃ doc, file.2 = JObj doc ∧ (lint_resource ABBREVIATIONS doc).2 = Raise e.


(** * Properties *)

(** ** The outcome monad *)

Lemma bind_Ret {A B} (a : A) (f : A → outcome B) : Ret a ≫= f = f a.
Proof. reflexivity. Qed.

Lemma returns_Ret {A} (a : A) : returns (Ret a).
Proof. by exists a. Qed.

Lemma raises_Raise {A} (e : exn) : raises (@Raise A e).
Proof. by exists e. Qed.

(** ** Strings *)

Lemma append_cons c (s t : string) : String c s +:+ t = String c (s +:+ t).
Proof. reflexivity. Qed.

Lemma append_assoc (s t u : string) : (s +:+ t) +:+ u = s +:+ (t +:+ u).
Proof. induction s as [|c s IH]; [done|]. by rewrite !append_cons, IH. Qed.

Lemma append_empty_r (s : string) : s +:+ EmptyString = s.
Proof. induction s as [|c s IH]; [done|]. by rewrite append_cons, IH. Qed.

Lemma length_append (s t : string) :
  String.length (s +:+ t) = (String.length s + String.length t)%nat.
Proof. induction s as [|x s IH]; [done|]. rewrite append_cons. simpl. by rewrite IH. Qed.

Lemma split_not_nil sep s : split sep s ≠ [].
Proof.
  destruct s as [|c s]; simpl; [done|].
  destruct (Ascii.eqb c sep); [done|]. by destruct (split sep s).
Qed.

(** Joining the tokens with the separator gives the text back. *)
Lemma join_split sep s : join (String sep EmptyString) (split sep s) = s.
Proof.
  unfold join. induction s as [|c s IH]; [done|]. simpl.
  destruct (Ascii.eqb_spec c sep) as [-> | Hc].
  - pose proof (split_not_nil sep s) as Hnil.
    simpl. destruct (split sep s) as [|tok toks]; [done|].
    by rewrite <- IH.
  - pose proof (split_not_nil sep s) as Hnil.
    destruct (split sep s) as [|tok toks]; [done|].
    rewrite <- IH. simpl. by destruct toks.
Qed.

Lemma split_hyphen_free s : hyphen_free s = true → split hyphen s = [s].
Proof.
  unfold hyphen_free. induction s as [|c s IH]; [done|]. simpl.
  intros [Hc Hs]%andb_true_iff. apply negb_true_iff in Hc.
  by rewrite Hc, IH.
Qed.

Lemma split_append s t :
  hyphen_free s = true →
  split hyphen (s +:+ String hyphen t) = s :: split hyphen t.
Proof.
  unfold hyphen_free. induction s as [|c s IH]; [done|]. simpl.
  intros [Hc Hs]%andb_true_iff. apply negb_true_iff in Hc.
  by rewrite Hc, IH.
Qed.

Lemma hyphen_free_append s t :
  hyphen_free s = true → hyphen_free t = true → hyphen_free (s +:+ t) = true.
Proof.
  unfold hyphen_free. induction s as [|c s IH]; [done|]. simpl.
  intros [Hc Hs]%andb_true_iff Ht. rewrite Hc. by apply IH.
Qed.

(** ** The [re] module *)

(** *** Matching, read backwards *)

Lemma matches_true p s : re.matches p s = true ↔ ∃ c, In c (re.ends p (0, s)).
Proof.
  unfold re.matches. destruct (re.ends p (0, s)) as [|c cs]; split.
  - discriminate.
  - intros [c []].
  - intros _. exists c. by left.
  - reflexivity.
Qed.

Lemma in_one ok c c0 :
  In c (re.one ok c0) ↔ ∃ x, c0.2 = String x c.2 ∧ ok x = true ∧ c.1 = S c0.1.
Proof.
  unfold re.one. destruct c0 as [n [|x rest]]; simpl.
  - split; [intros []|]. intros (x & Hx & _). discriminate Hx.
  - destruct (ok x) eqn:Hok; simpl; split.
    + intros [<- | []]. by exists x.
    + intros (y & [= -> Hrest] & _ & Hn). left. destruct c; simpl in *; congruence.
    + intros [].
    + intros (y & [= -> _] & Hy & _). congruence.
Qed.

Lemma in_ends_LITERAL x c c0 :
  In c (re.ends (re.LITERAL x) c0) ↔ c0.2 = String x c.2 ∧ c.1 = S c0.1.
Proof.
  cbn [re.ends]. rewrite in_one. split.
  - intros (y & Hy & Heq & Hn). by apply Ascii.eqb_eq in Heq as ->.
  - intros [Hx Hn]. exists x. by rewrite Ascii.eqb_refl.
Qed.

Lemma in_ends_IN negate set c c0 :
  In c (re.ends (re.IN negate set) c0)
  ↔ ∃ x, c0.2 = String x c.2
         ∧ xorb negate (existsb (re.in_item x) set) = true ∧ c.1 = S c0.1.
Proof. cbn [re.ends]. apply in_one. Qed.

Lemma in_ends_CAT p q c c0 :
  In c (re.ends (re.CAT p q) c0) ↔ ∃ c1, In c1 (re.ends p c0) ∧ In c (re.ends q c1).
Proof. cbn [re.ends]. apply in_flat_map. Qed.

Lemma in_ends_BRANCH p q c c0 :
  In c (re.ends (re.BRANCH p q) c0) ↔ In c (re.ends p c0) ∨ In c (re.ends q c0).
Proof. cbn [re.ends]. apply in_app_iff. Qed.

Lemma in_ends_SUBPATTERN p c c0 :
  In c (re.ends (re.SUBPATTERN p) c0) ↔ In c (re.ends p c0).
Proof. reflexivity. Qed.

Lemma in_ends_EMPTY c c0 : In c (re.ends re.EMPTY c0) ↔ c = c0.
Proof. cbn [re.ends]. split; [by intros [-> | []]|intros ->; by left]. Qed.

Lemma in_ends_AT_BEGINNING c c0 :
  In c (re.ends re.AT_BEGINNING c0) ↔ c = c0 ∧ c0.1 = 0%nat.
Proof.
  cbn [re.ends]. destruct c0 as [[|n] s]; simpl; split.
  - by intros [-> | []].
  - intros [-> _]. by left.
  - intros [].
  - intros [_ [=]].
Qed.

Lemma in_ends_AT_END c c0 :
  In c (re.ends re.AT_END c0) ↔ c = c0 ∧ (c0.2 = EmptyString ∨ c0.2 = String newline EmptyString).
Proof.
  cbn [re.ends]. destruct c0 as [n [|x [|y text]]]; simpl.
  - split; [intros [-> | []]; auto|intros [-> _]; by left].
  - destruct (Ascii.eqb_spec x newline) as [-> | Hx]; simpl.
    + split; [intros [-> | []]; auto|intros [-> _]; by left].
    + split; [intros []|]. intros [_ [[=] | [=]]]. done.
  - split; [intros []|]. intros [_ [[=] | [=]]].
Qed.

(** [H] says that a literal and then more is matched: name the cursor
    behind the literal [c] and what it says of the text [Heq]; [H] is left
    with the rest. *)
Ltac read_literal H c Heq :=
  apply in_ends_CAT in H as (c & [Heq _]%in_ends_LITERAL & H).

Lemma in_ends_cat_word s r c c0 :
  In c (re.ends (cat_word s r) c0)
  ↔ ∃ rest, c0.2 = s +:+ rest ∧ In c (re.ends r ((c0.1 + String.length s)%nat, rest)).
Proof.
  revert c0. induction s as [|x s IH]; intros [n text].
  - change (cat_word EmptyString r) with r. simpl. rewrite Nat.add_0_r. split.
    + intros Hc. by exists text.
    + by intros (rest & -> & Hc).
  - change (cat_word (String x s) r) with (re.CAT (re.LITERAL x) (cat_word s r)).
    rewrite in_ends_CAT. simpl. split.
    + intros ([n1 text1] & [Hx Hn]%in_ends_LITERAL & (rest & Htext & Hc)%IH).
      simpl in *. subst. exists rest. split; [by rewrite append_cons|].
      by rewrite Nat.add_succ_r.
    + intros (rest & -> & Hc). exists (S n, s +:+ rest). split.
      * apply in_ends_LITERAL. by rewrite append_cons.
      * apply IH. exists rest. split; [done|]. simpl. by rewrite Nat.add_succ_r in Hc.
Qed.

(** *** Repetitions

    A repetition is run for [min] rounds and one more per character
    ahead. More rounds reach no further cursor: a round either consumes a
    character or leaves the cursor where it was. So the cursors found are
    those of any number of rounds within the bounds. *)

Lemma after_refl c : after c c.
Proof. exists EmptyString. simpl. by rewrite Nat.add_0_r. Qed.

Lemma after_trans c1 c2 c3 : after c1 c2 → after c2 c3 → after c1 c3.
Proof.
  intros (w1 & Hw1 & Hn1) (w2 & Hw2 & Hn2). exists (w1 +:+ w2).
  rewrite append_assoc, <- Hw2, <- Hw1, length_append. split; [done|lia].
Qed.

Lemma after_one ok c c' : In c' (re.one ok c) → after c c'.
Proof.
  intros (x & Hx & _ & Hn)%in_one. exists (String x EmptyString).
  split; [done|]. simpl. lia.
Qed.

(** A round that consumes nothing returns the cursor it started from. *)
Lemma after_length c c' :
  after c c' → c' = c ∨ (String.length c'.2 < String.length c.2)%nat.
Proof.
  intros ([|x w] & Hw & Hn).
  - left. destruct c, c'. simpl in *. subst. f_equal. lia.
  - right. rewrite Hw, length_append. simpl. lia.
Qed.

Lemma after_repeat body fuel min max c c' :
  (∀ c1 c2, In c2 (body c1) → after c1 c2) →
  In c' (re.repeat body fuel min max c) → after c c'.
Proof.
  intros Hbody. revert min max c.
  induction fuel as [|fuel IH]; intros min max c; simpl; rewrite in_app_iff.
  - intros [Hc | []]. destruct min; [|done]. destruct Hc as [<- | []]. apply after_refl.
  - intros [Hc | Hc].
    + destruct min; [|done]. destruct Hc as [<- | []]. apply after_refl.
    + assert (In c' (flat_map (re.repeat body fuel (pred min) (pred <$> max)) (body c)))
        as (c1 & Hc1 & Hc')%in_flat_map by by destruct max as [[|?]|].
      eapply after_trans; eauto.
Qed.

Lemma after_ends p c c' : In c' (re.ends p c) → after c c'.
Proof.
  revert c c'. induction p as [x| |negate set| | |p IH|greedy min max p IH| |p IHp q IHq|p IHp q IHq];
    intros c c'; cbn [re.ends].
  - apply after_one.
  - apply after_one.
  - apply after_one.
  - intros [-> _]%in_ends_AT_BEGINNING. apply after_refl.
  - intros [-> _]%in_ends_AT_END. apply after_refl.
  - apply IH.
  - by apply after_repeat.
  - intros [<- | []]. apply after_refl.
  - intros (c1 & H1 & H2)%in_flat_map. eapply after_trans; eauto.
  - intros [H | H]%in_app_iff; eauto.
Qed.

Lemma repeat_S body fuel min max c :
  re.repeat body (S fuel) min max c
  = ((match min with 0%nat => [c] | S _ => [] end)
     ++ match max with
        | Some 0%nat => []
        | _ => flat_map (re.repeat body fuel (pred min) (pred <$> max)) (body c)
        end)%list.
Proof. reflexivity. Qed.

Lemma repeat_zero body fuel max c : In c (re.repeat body fuel 0 max c).
Proof. destruct fuel; simpl; by left. Qed.

Lemma repeat_fuel_mono body fuel fuel' min max c c' :
  (fuel ≤ fuel')%nat →
  In c' (re.repeat body fuel min max c) → In c' (re.repeat body fuel' min max c).
Proof.
  revert fuel' min max c. induction fuel as [|fuel IH]; intros fuel' min max c Hle;
    simpl; rewrite in_app_iff.
  - intros [Hc | []]. destruct fuel'; simpl; apply in_app_iff; by left.
  - destruct fuel' as [|fuel']; [lia|]. simpl. rewrite in_app_iff.
    intros [Hc | Hc]; [by left|right].
    destruct max as [[|k]|]; try done.
    + apply in_flat_map in Hc as (c1 & Hc1 & Hc). apply in_flat_map.
      exists c1. split; [done|]. apply IH; [lia|done].
    + apply in_flat_map in Hc as (c1 & Hc1 & Hc). apply in_flat_map.
      exists c1. split; [done|]. apply IH; [lia|done].
Qed.

Lemma repeat_bound_mono body fuel min max max' c c' :
  bound_le max max' →
  In c' (re.repeat body fuel min max c) → In c' (re.repeat body fuel min max' c).
Proof.
  revert min max max' c. induction fuel as [|fuel IH]; intros min max max' c Hle;
    simpl; rewrite !in_app_iff; [done|].
  intros [Hc | Hc]; [by left|right].
  destruct max as [[|k]|], max' as [[|k']|]; simpl in Hle; try done; try lia.
  all: apply in_flat_map in Hc as (c1 & Hc1 & Hc); apply in_flat_map.
  all: exists c1; split; [done|]; eapply IH; [|exact Hc]; simpl; try done; lia.
Qed.

(** Whatever the fuel, the cursors reached are reached with the fuel
    that [re.ends] gives. *)
Lemma repeat_enough body fuel min max c c' :
  (∀ c1 c2, In c2 (body c1) → after c1 c2) →
  In c' (re.repeat body fuel min max c) →
  In c' (re.repeat body (min + String.length c.2) min max c).
Proof.
  intros Hbody. revert min max c.
  induction fuel as [|fuel IH]; intros min max c.
  - apply repeat_fuel_mono. lia.
  - simpl. rewrite in_app_iff. intros [Hc | Hc].
    { destruct min; [|done]. destruct Hc as [<- | []]. apply repeat_zero. }
    assert (max ≠ Some 0%nat ∧
            In c' (flat_map (re.repeat body fuel (pred min) (pred <$> max)) (body c)))
      as [Hmax (c1 & Hc1 & Hc')%in_flat_map] by by destruct max as [[|?]|].
    apply IH in Hc'.
    destruct (after_length _ _ (Hbody _ _ Hc1)) as [-> | Hshorter].
    + (* the round consumed nothing *)
      destruct min as [|min].
      * simpl in Hc'. eapply repeat_bound_mono; [|exact Hc'].
        destruct max as [[|?]|]; simpl; try done; lia.
      * change (S min + String.length c.2)%nat with (S (min + String.length c.2)).
        rewrite repeat_S, in_app_iff. right. simpl in Hc'.
        destruct max as [[|k]|]; try done; apply in_flat_map; by exists c.
    + (* the round consumed a character *)
      assert (∃ fuel', (min + String.length c.2 = S fuel')%nat
                       ∧ (pred min + String.length c1.2 ≤ fuel')%nat)
        as (fuel' & -> & Hfuel) by (exists (pred (min + String.length c.2)); lia).
      rewrite repeat_S, in_app_iff. right.
      destruct max as [[|k]|]; try done; apply in_flat_map; exists c1;
        (split; [done|]); eapply repeat_fuel_mono; eauto.
Qed.

(** The cursors that [re.ends] finds for a repetition are those that any
    number of rounds within the bounds can reach. *)
Theorem ends_REPEAT_any_fuel greedy min max p fuel c c' :
  In c' (re.repeat (re.ends p) fuel min max c) →
  In c' (re.ends (re.REPEAT greedy min max p) c).
Proof. cbn [re.ends]. apply repeat_enough. intros c1 c2. apply after_ends. Qed.

Lemma in_repeat body fuel min max c c' :
  In c' (re.repeat body fuel min max c)
  ↔ ∃ k, (min ≤ k ≤ fuel)%nat ∧ within k max ∧ In c' (rounds body k c).
Proof.
  revert min max c. induction fuel as [|fuel IH]; intros min max c.
  - simpl. rewrite app_nil_r. split.
    + intros Hc. destruct min; [|done]. exists 0%nat.
      repeat split; [lia..| |done]. destruct max; simpl; lia.
    + intros (k & Hk & _ & Hc). assert (k = 0%nat) as -> by lia.
      by assert (min = 0%nat) as -> by lia.
  - rewrite repeat_S, in_app_iff. split.
    + intros [Hc | Hc].
      * destruct min; [|done]. exists 0%nat.
        repeat split; [lia..| |done]. destruct max; simpl; lia.
      * assert (max ≠ Some 0%nat ∧
                In c' (flat_map (re.repeat body fuel (pred min) (pred <$> max)) (body c)))
          as [Hmax (c1 & Hc1 & (k & Hk & Hwithin & Hc')%IH)%in_flat_map]
          by by destruct max as [[|?]|].
        exists (S k). split; [lia|]. split.
        -- destruct max as [[|m]|]; simpl in *; try done; lia.
        -- simpl. apply in_flat_map. by exists c1.
    + intros ([|k] & Hk & Hwithin & Hc).
      * left. by assert (min = 0%nat) as -> by lia.
      * right. simpl in Hc. apply in_flat_map in Hc as (c1 & Hc1 & Hc).
        assert (In c' (re.repeat body fuel (pred min) (pred <$> max) c1)) as Hc'.
        { apply IH. exists k. split; [lia|]. split; [|done].
          destruct max as [[|m]|]; simpl in *; try done; lia. }
        destruct max as [[|m]|]; simpl in Hwithin; try lia;
          apply in_flat_map; by exists c1.
Qed.

(** A repetition reaches the cursors that some number of rounds between
    its bounds reaches. *)
Theorem in_ends_REPEAT greedy min max p c c' :
  In c' (re.ends (re.REPEAT greedy min max p) c)
  ↔ ∃ k, (min ≤ k)%nat ∧ within k max ∧ In c' (rounds (re.ends p) k c).
Proof.
  split.
  - cbn [re.ends]. intros (k & Hk & Hwithin & Hc)%in_repeat. exists k.
    split; [lia|done].
  - intros (k & Hk & Hwithin & Hc).
    apply (ends_REPEAT_any_fuel greedy min max p k). apply in_repeat.
    exists k. split; [lia|done].
Qed.

(** *** Parsing text without special characters *)

Lemma steps_app st (s t : string) :
  re.steps st (s +:+ t) = (st' ← re.steps st s; re.steps st' t).
Proof.
  revert st. induction s as [|c s IH]; intros st; [done|].
  rewrite append_cons. simpl. destruct (re.step st c) as [st'| |]; [|done..].
  rewrite !bind_Ret. apply IH.
Qed.

Lemma ordinary_plain c st :
  special c = false → re.ordinary c st = Ret (re.push (re.LITERAL c) st).
Proof.
  destruct c as [[] [] [] [] [] [] [] []]; try reflexivity; discriminate.
Qed.

Lemma literals_cons c s st :
  re.literals (String c s) st = re.literals s (re.push (re.LITERAL c) st).
Proof. reflexivity. Qed.

(** In normal mode a text without special characters is read as so
    many literals. *)
Lemma steps_plain s st :
  re.md st = re.Normal →
  forallb (λ c, negb (special c)) (list_ascii_of_string s) = true →
  re.steps st s = Ret (re.literals s st).
Proof.
  revert st. induction s as [|c s IH]; intros st Hmd Hs; [done|].
  simpl in Hs. apply andb_true_iff in Hs as [Hc Hs]. apply negb_true_iff in Hc.
  simpl. unfold re.step. rewrite Hmd, (ordinary_plain _ _ Hc), bind_Ret.
  rewrite literals_cons. by apply IH.
Qed.

Lemma literals_state s st :
  re.md st = re.Normal →
  re.literals s st
  = re.State (re.outer st)
      (re.Frame (re.branches (re.inner st))
         (rev (map re.LITERAL (list_ascii_of_string s)) ++ re.items (re.inner st))%list)
      re.Normal.
Proof.
  revert st. induction s as [|c s IH]; intros st Hmd.
  - destruct st as [o [b i] m]. simpl in *. by subst.
  - rewrite literals_cons, IH by done. simpl. by rewrite <- app_assoc.
Qed.

Lemma sequence_word s its acc :
  fold_left (λ acc it, re.CAT it acc)
    (rev (map re.LITERAL (list_ascii_of_string s)) ++ its)%list acc
  = fold_left (λ acc it, re.CAT it acc) its (cat_word s acc).
Proof.
  rewrite fold_left_app. f_equal. unfold cat_word.
  induction (list_ascii_of_string s) as [|c cs IH]; [done|].
  simpl. by rewrite fold_left_app, IH.
Qed.

Lemma steps_hyphen st :
  re.md st = re.Normal → re.steps st "-" = Ret (re.push (re.LITERAL hyphen) st).
Proof. intros Hmd. simpl. unfold re.step. by rewrite Hmd. Qed.

Lemma steps_dollar st :
  re.md st = re.Normal → re.steps st "$" = Ret (re.push re.AT_END st).
Proof. intros Hmd. simpl. unfold re.step. by rewrite Hmd. Qed.

(** ** The linked-service evaluator *)

Lemma lint_linked_service_str A (ls_name : string) :
  lint_linked_service A ls_name
  = Ret (append_if (negb (existsb (startswith ls_name) (LinkedService A)))
                   (msg_ls_unknown ls_name)
                   (append_if (negb (startswith ls_name "LS_")) msg_ls_prefix [])).
Proof. reflexivity. Qed.

(** C1, as stated, fails: with [ADLS] in the set the name is still
    reported, since the name does not start with [ADLS]; and with [ADLS]
    absent the name passes as soon as the set holds a prefix of it. *)
Lemma C1_counterexample :
  (In "ADLS" (LinkedService {| LinkedService := ["ADLS"]; Dataset := [] |})
   ∧ lint_linked_service {| LinkedService := ["ADLS"]; Dataset := [] |}
                         "LS_ADLS_LZ_ONPREMIR"
     = Ret [msg_ls_unknown "LS_ADLS_LZ_ONPREMIR"])
  ∧ (¬ In "ADLS" (LinkedService {| LinkedService := ["LS_"]; Dataset := [] |})
     ∧ lint_linked_service {| LinkedService := ["LS_"]; Dataset := [] |}
                           "LS_ADLS_LZ_ONPREMIR"
       = Ret []).
Proof.
  split; split; try reflexivity.
  - by left.
  - intros [H | []]. discriminate H.
Qed.

(** C1, amended: on the name [LS_ADLS_LZ_ONPREMIR] the evaluator returns
    the empty list when some member of the LinkedService set is a prefix
    of the whole name, and otherwise exactly one violation, the
    abbreviation violation and never the prefix violation; the member
    [ADLS] is not a prefix of the name, so adding it to the set changes
    nothing. *)
Theorem C1_linked_service_example (A : abbreviations) :
  lint_linked_service A "LS_ADLS_LZ_ONPREMIR"
  = Ret (if existsb (startswith "LS_ADLS_LZ_ONPREMIR") (LinkedService A)
         then []
         else [msg_ls_unknown "LS_ADLS_LZ_ONPREMIR"])
  ∧ msg_ls_unknown "LS_ADLS_LZ_ONPREMIR" ≠ msg_ls_prefix
  ∧ lint_linked_service
      {| LinkedService := "ADLS" :: LinkedService A; Dataset := Dataset A |}
      "LS_ADLS_LZ_ONPREMIR"
    = lint_linked_service A "LS_ADLS_LZ_ONPREMIR".
Proof.
  split; [|split].
  - rewrite lint_linked_service_str.
    by destruct (existsb _ (LinkedService A)).
  - discriminate.
  - by rewrite !lint_linked_service_str.
Qed.

(** ** The dataset evaluator *)

Lemma lint_dataset_str A (ds_name dataset_type : string) :
  lint_dataset A ds_name dataset_type
  = (m ← re.match_ detail_pattern (join "_" (slice (split "_" ds_name) 2 (-1)));
     Ret (append_if (negb m)
            (msg_ds_detail (join "_" (slice (split "_" ds_name) 2 (-1))))
            match FORMAT_MAPPING !! dataset_type with
            | Some expected_format =>
                append_if (negb (String.eqb expected_format EmptyString)
                           && negb (endswith ds_name ("_" +:+ expected_format)))
                          (msg_ds_suffix ds_name expected_format)
                          (append_if (negb (startswith ds_name "DS_")) msg_ds_prefix [])
            | None => append_if (negb (startswith ds_name "DS_")) msg_ds_prefix []
            end)).
Proof. reflexivity. Qed.

(** C8: [DS_SQL_CUSTOMERS_CSV] with format [DelimitedText] passes the
    three checks, the suffix being the mapped [CSV]; the lower-case name
    is reported at least for its prefix and for its detail segment. *)
Theorem C8_dataset_examples (A : abbreviations) :
  (FORMAT_MAPPING !! "DelimitedText" = Some "CSV"
   ∧ startswith "DS_SQL_CUSTOMERS_CSV" "DS_" = true
   ∧ endswith "DS_SQL_CUSTOMERS_CSV" "_CSV" = true
   ∧ re.match_ detail_pattern
       (join "_" (slice (split "_" "DS_SQL_CUSTOMERS_CSV") 2 (-1))) = Ret true
   ∧ lint_dataset A "DS_SQL_CUSTOMERS_CSV" "DelimitedText" = Ret [])
  ∧ ∃ errors,
      lint_dataset A "ds_sql_customers_csv" "DelimitedText" = Ret errors
      ∧ In msg_ds_prefix errors
      ∧ In (msg_ds_detail (join "_" (slice (split "_" "ds_sql_customers_csv") 2 (-1))))
           errors.
Proof.
  split.
  - repeat split; vm_compute; reflexivity.
  - eexists. split; [vm_compute; reflexivity|].
    split; [by left|]. right. right. left. vm_compute. reflexivity.
Qed.

Lemma slice_short {A} (l : list A) : (length l < 4)%nat → slice l 2 (-1) = [].
Proof.
  intros Hlen. unfold slice, clip.
  replace (Z.to_nat _) with 0%nat; [reflexivity|].
  destruct (Z.ltb_spec 2 0), (Z.ltb_spec (-1) 0); lia.
Qed.

Lemma empty_detail_rejected : re.match_ detail_pattern EmptyString = Ret false.
Proof. reflexivity. Qed.

(** C7: a dataset name with fewer than four tokens between underscores
    does not make the evaluator raise; its detail segment is the empty
    string, which the pattern [^[A-Z0-9_]+$] rejects, and the violation
    of the detail segment is among the results. *)
Theorem C7_short_dataset_name (A : abbreviations) (ds_name dataset_type : string) :
  (length (split "_" ds_name) < 4)%nat →
  join "_" (slice (split "_" ds_name) 2 (-1)) = EmptyString
  ∧ re.match_ detail_pattern EmptyString = Ret false
  ∧ ∃ errors,
      lint_dataset A ds_name dataset_type = Ret errors
      ∧ In (msg_ds_detail EmptyString) errors.
Proof.
  intros Hshort. split; [by rewrite slice_short|].
  split; [apply empty_detail_rejected|].
  rewrite lint_dataset_str, slice_short by done.
  change (join "_" []) with EmptyString. rewrite empty_detail_rejected, bind_Ret.
  eexists. split; [reflexivity|].
  apply in_or_app. right. by left.
Qed.

Lemma C7_short_dataset_name_witness :
  (length (split "_" "DS_SQL_CSV") < 4)%nat
  ∧ ∃ errors,
      lint_dataset no_abbreviations "DS_SQL_CSV" "DelimitedText" = Ret errors
      ∧ In (msg_ds_detail EmptyString) errors.
Proof.
  split; [vm_compute; lia|].
  apply (C7_short_dataset_name no_abbreviations "DS_SQL_CSV" "DelimitedText").
  vm_compute; lia.
Defined.

(** ** The pipeline evaluator *)

Lemma compile_master : re.compile master_pattern = Ret master_re.
Proof. vm_compute. reflexivity. Qed.

Lemma compile_sub : re.compile sub_pattern = Ret sub_re.
Proof. vm_compute. reflexivity. Qed.

Lemma match_master (s : string) :
  re.match_ master_pattern s = Ret (re.matches master_re s).
Proof. unfold re.match_. by rewrite compile_master. Qed.

Lemma match_sub (s : string) :
  re.match_ sub_pattern s = Ret (re.matches sub_re s).
Proof. unfold re.match_. by rewrite compile_sub. Qed.

(** A cursor three digits into a text. *)
Lemma in_three_digits c s :
  In c (re.ends (re.REPEAT true 3 (Some 3) digit) (0%nat, s))
  → ∃ d1 d2 d3, s = String d1 (String d2 (String d3 c.2)).
Proof.
  intros (k & Hmin & Hmax & Hc)%in_ends_REPEAT. simpl in Hmax.
  assert (k = 3%nat) as -> by lia. cbn [rounds] in Hc.
  apply in_flat_map in Hc as (c1 & (d1 & Hd1 & _)%in_ends_IN & Hc).
  apply in_flat_map in Hc as (c2 & (d2 & Hd2 & _)%in_ends_IN & Hc).
  apply in_flat_map in Hc as (c3 & (d3 & Hd3 & _)%in_ends_IN & [<- | []]).
  exists d1, d2, d3. simpl in Hd1. congruence.
Qed.

Lemma master_shape s :
  re.matches master_re s = true →
  ∃ d1 d2 d3 rest,
    s = String d1 (String d2 (String d3 (String "_" (String "0" (String "0" rest))))).
Proof.
  intros [c Hc]%matches_true. unfold master_re in Hc.
  apply in_ends_CAT in Hc as (c0 & [-> _]%in_ends_AT_BEGINNING & Hc).
  apply in_ends_CAT in Hc as (c1 & (d1 & d2 & d3 & ->)%in_three_digits & Hc).
  cbn [cat_word list_ascii_of_string fold_right] in Hc.
  read_literal Hc c2 H2.
  read_literal Hc c3 H3.
  read_literal Hc c4 H4.
  exists d1, d2, d3, c4.2. congruence.
Qed.

Lemma sub_shape s :
  re.matches sub_re s = true →
  ∃ d1 d2 d3 x y rest,
    s = String d1 (String d2 (String d3 (String "_" (String x (String y rest)))))
    ∧ (x = "0"%char → between 49 57 y = true)
    ∧ (x ≠ "0"%char → between 49 57 x = true).
Proof.
  intros [c Hc]%matches_true. unfold sub_re in Hc.
  apply in_ends_CAT in Hc as (c0 & [-> _]%in_ends_AT_BEGINNING & Hc).
  apply in_ends_CAT in Hc as (c1 & (d1 & d2 & d3 & ->)%in_three_digits & Hc).
  read_literal Hc c2 H2.
  apply in_ends_CAT in Hc as (c3 & Hnum & _).
  unfold sequence_number in Hnum.
  apply in_ends_SUBPATTERN, in_ends_BRANCH in Hnum as [Hnum | Hnum].
  - read_literal Hnum c4 H4.
    apply in_ends_CAT in Hnum as (c5 & (y & H5 & Hy & _)%in_ends_IN & _).
    exists d1, d2, d3, "0"%char, y, c5.2. split; [congruence|].
    split; [intros _|done]. simpl in Hy. by rewrite orb_false_r in Hy.
  - apply in_ends_CAT in Hnum as (c4 & (x & H4 & Hx & _)%in_ends_IN & Hnum).
    apply in_ends_CAT in Hnum as (c5 & (y & H5 & _)%in_ends_IN & _).
    exists d1, d2, d3, x, y, c5.2. split; [congruence|].
    simpl in Hx. rewrite orb_false_r in Hx.
    split; [intros ->; discriminate Hx|done].
Qed.

(** No name is both a master and a sub-pipeline: the sequence number of
    a master is [00], which the sub pattern excludes. *)
Lemma master_not_sub s : re.matches master_re s = true → re.matches sub_re s = false.
Proof.
  intros (d1 & d2 & d3 & rest & ->)%master_shape.
  destruct (re.matches sub_re _) eqn:Hsub; [|done].
  apply sub_shape in Hsub as (e1 & e2 & e3 & x & y & rest' & [= _ _ _ <- <- _] & Hy & _).
  specialize (Hy eq_refl). discriminate Hy.
Qed.

Lemma pipeline_errors_length is_master is_sub pipeline_name :
  (length (pipeline_errors is_master is_sub pipeline_name) ≤ 1)%nat.
Proof.
  unfold pipeline_errors.
  destruct is_master, is_sub, (contains pipeline_name "Master"); simpl; lia.
Qed.

(** C5: the pipeline evaluator returns, with at most one violation. When
    the name matches the master or the sub pattern there is a violation
    exactly when it matches the sub pattern and holds [Master]; when it
    matches neither there is exactly one, that of the convention. *)
Theorem C5_pipeline (A : abbreviations) (pipeline_name : string) :
  ∃ is_master is_sub : bool,
    re.match_ master_pattern pipeline_name = Ret is_master
    ∧ re.match_ sub_pattern pipeline_name = Ret is_sub
    ∧ lint_pipeline A pipeline_name
      = Ret (pipeline_errors is_master is_sub pipeline_name)
    ∧ (length (pipeline_errors is_master is_sub pipeline_name) ≤ 1)%nat.
Proof.
  exists (re.matches master_re pipeline_name), (re.matches sub_re pipeline_name).
  split; [apply match_master|]. split; [apply match_sub|].
  split; [|apply pipeline_errors_length].
  unfold lint_pipeline, pipeline_errors. rewrite match_master, bind_Ret.
  destruct (re.matches master_re pipeline_name) eqn:Hmaster.
  - by rewrite (master_not_sub _ Hmaster).
  - rewrite match_sub, bind_Ret.
    by destruct (re.matches sub_re pipeline_name),
                (contains pipeline_name "Master").
Qed.

(** The three outcomes on names in the style of the source's examples. *)
Lemma lint_pipeline_examples (A : abbreviations) :
  lint_pipeline A "001_00_Master_Hilan" = Ret []
  ∧ lint_pipeline A "001_02_Hilan" = Ret []
  ∧ lint_pipeline A "001_02_Master_Hilan" = Ret [msg_sub_master "001_02_Master_Hilan"]
  ∧ lint_pipeline A "Hilan" = Ret [msg_pipeline "Hilan"].
Proof. repeat split; vm_compute; reflexivity. Qed.

(** ** The trigger evaluator *)

Lemma lint_trigger_str A (trigger_name : string) trigger_type project_name pipeline_name :
  index (split hyphen trigger_name) 1 = Ret project_name →
  index (split hyphen trigger_name) (-1) = Ret pipeline_name →
  lint_trigger A trigger_name trigger_type
  = (m ← re.match_ (trigger_pattern project_name pipeline_name) trigger_name;
     Ret (append_if (negb m)
            (msg_no_match trigger_name (trigger_pattern project_name pipeline_name))
            (prefix_errors trigger_name trigger_type))).
Proof.
  intros Hproject Hpipeline. unfold lint_trigger.
  change (split "-" trigger_name) with (split hyphen trigger_name).
  by rewrite Hproject, Hpipeline.
Qed.

(** C3, as stated, fails: [Weekly-hilan] splits into two tokens, index 1
    exists, and the violation returned is the mismatch with the rebuilt
    pattern, not "not properly formatted". *)
Lemma C3_counterexample :
  split hyphen "Weekly-hilan" = ["Weekly"; "hilan"]
  ∧ lint_trigger no_abbreviations "Weekly-hilan" "ScheduleTrigger"
    ≠ Ret [msg_not_formatted "Weekly-hilan"].
Proof. split; [reflexivity|]. vm_compute. discriminate. Qed.

(** C3, amended: [Daily-SAPBW-hilan] of type [ScheduleTrigger] has no
    violation; [Weekly-hilan] of the same type has exactly one, the
    mismatch with the pattern rebuilt from its tokens (project [hilan],
    pipeline [hilan]). *)
Theorem C3_trigger_examples (A : abbreviations) :
  lint_trigger A "Daily-SAPBW-hilan" "ScheduleTrigger" = Ret []
  ∧ lint_trigger A "Weekly-hilan" "ScheduleTrigger"
    = Ret [msg_no_match "Weekly-hilan" (trigger_pattern "hilan" "hilan")].
Proof. split; vm_compute; reflexivity. Qed.

(** C9: the tokens go into the pattern as they are, so a name whose
    project token is [(] or [+*] makes [re.match] raise, and the
    evaluator with it, whatever the trigger type. *)
Theorem C9_trigger_raises :
  ∃ trigger_name project_name pipeline_name : string,
    index (split hyphen trigger_name) 1 = Ret project_name
    ∧ index (split hyphen trigger_name) (-1) = Ret pipeline_name
    ∧ special "(" = true
    ∧ In "("%char (list_ascii_of_string project_name)
    ∧ re.compile (trigger_pattern project_name pipeline_name) = Raise re_error
    ∧ ∀ (A : abbreviations) (trigger_type : json),
        lint_trigger A trigger_name trigger_type = Raise re_error.
Proof.
  exists "Daily-(-x", "(", "x".
  repeat split; try reflexivity. by left.
Qed.

(** The same with a quantifier: [+*] repeats a repetition. *)
Lemma trigger_raises_on_plus (A : abbreviations) (trigger_type : json) :
  lint_trigger A "Daily-+*-x" trigger_type = Raise re_error.
Proof. reflexivity. Qed.

(** A name without hyphen has no token of index 1: whatever checks 1
    and 2 report, "not properly formatted" follows and nothing else. *)
Lemma lint_trigger_one_token (A : abbreviations) (trigger_name : string)
    (trigger_type : json) :
  hyphen_free trigger_name = true →
  lint_trigger A trigger_name trigger_type
  = Ret (prefix_errors trigger_name trigger_type ++ [msg_not_formatted trigger_name])%list.
Proof.
  intros Hfree. unfold lint_trigger.
  change (split "-" trigger_name) with (split hyphen trigger_name).
  by rewrite split_hyphen_free.
Qed.

(** *** The pattern rebuilt from plain tokens *)

Lemma plain_not_special s :
  plain s = true → forallb (λ c, negb (special c)) (list_ascii_of_string s) = true.
Proof.
  unfold plain. rewrite !forallb_forall. intros H c Hc.
  specialize (H c Hc). by apply andb_true_iff in H as [? _].
Qed.

Lemma plain_hyphen_free s : plain s = true → hyphen_free s = true.
Proof.
  unfold plain, hyphen_free. rewrite !forallb_forall. intros H c Hc.
  specialize (H c Hc). by apply andb_true_iff in H as [_ ?].
Qed.

(** The state of the parser after the fixed head of the pattern. *)
Lemma steps_head :
  re.steps re.initial "^(Daily|Hourly|Weekly|Monthly|File)-"
  = Ret (re.State [] (re.Frame [] [re.LITERAL hyphen; frequency_re; re.AT_BEGINNING])
           re.Normal).
Proof. vm_compute. reflexivity. Qed.

Lemma compile_trigger project_name pipeline_name :
  plain project_name = true → plain pipeline_name = true →
  re.compile (trigger_pattern project_name pipeline_name)
  = Ret (trigger_re project_name pipeline_name).
Proof.
  intros Hproject%plain_not_special Hpipeline%plain_not_special.
  unfold re.compile, trigger_pattern.
  rewrite steps_app, steps_head, bind_Ret.
  rewrite steps_app, steps_plain, bind_Ret by done.
  rewrite steps_app, steps_hyphen, bind_Ret by by rewrite literals_state.
  rewrite steps_app, steps_plain, bind_Ret by done.
  rewrite steps_dollar, bind_Ret by by rewrite literals_state.
  rewrite !literals_state by done.
  unfold re.finish, re.push, re.close, re.sequence.
  cbn [re.outer re.inner re.branches re.items re.md fold_left].
  rewrite sequence_word. cbn [fold_left]. rewrite sequence_word. reflexivity.
Qed.

(** The group of frequencies consumes exactly one of the five words. *)
Lemma in_ends_frequency c c0 :
  In c (re.ends frequency_re c0)
  ↔ ∃ frequency, In frequency frequencies
                 ∧ c0.2 = frequency +:+ c.2
                 ∧ c.1 = (c0.1 + String.length frequency)%nat.
Proof.
  unfold frequency_re. rewrite in_ends_SUBPATTERN, !in_ends_BRANCH, !in_ends_cat_word.
  setoid_rewrite in_ends_EMPTY. split.
  - intros H. decompose [or ex and] H; subst; simpl;
      eexists; (split; [|split; [eassumption|reflexivity]]); simpl; tauto.
  - intros (frequency & Hin & Htext & Hn). destruct c as [n text]. simpl in *.
    decompose [or] Hin; subst; try done.
    + left. by eexists.
    + right; left. by eexists.
    + do 2 right; left. by eexists.
    + do 3 right; left. by eexists.
    + do 4 right. by eexists.
Qed.

(** The rebuilt pattern matches a frequency word, a hyphen, the project,
    a hyphen and the pipeline, up to a final line feed. *)
Lemma matches_trigger_re project_name pipeline_name s :
  re.matches (trigger_re project_name pipeline_name) s = true
  ↔ ∃ frequency, In frequency frequencies
      ∧ (s = three_tokens frequency project_name pipeline_name
         ∨ s = three_tokens frequency project_name (pipeline_name +:+ String newline EmptyString)).
Proof.
  rewrite matches_true. unfold trigger_re. split.
  - intros [c Hc].
    apply in_ends_CAT in Hc as (c0 & [-> _]%in_ends_AT_BEGINNING & Hc).
    apply in_ends_CAT in Hc as (c1 & (frequency & Hin & Hs & _)%in_ends_frequency & Hc).
    read_literal Hc c2 H2.
    apply in_ends_cat_word in Hc as (rest3 & H3 & Hc).
    read_literal Hc c4 H4.
    apply in_ends_cat_word in Hc as (rest5 & H5 & Hc).
    apply in_ends_CAT in Hc as (c6 & [-> Hend]%in_ends_AT_END & _).
    exists frequency. split; [done|]. unfold three_tokens. simpl in *.
    rewrite Hs, H2, H3, H4, H5.
    destruct Hend as [-> | ->]; [left|right]; by rewrite ?append_empty_r.
  - intros (frequency & Hin & Hs).
    set (n := (S (S (String.length frequency + String.length project_name))
               + String.length pipeline_name)%nat).
    assert (∃ tail, (tail = EmptyString ∨ tail = String newline EmptyString)
                    ∧ s = three_tokens frequency project_name pipeline_name +:+ tail)
      as (tail & Htail & ->).
    { destruct Hs as [-> | ->]; [exists EmptyString|exists (String newline EmptyString)].
      - split; [by left|]. by rewrite append_empty_r.
      - split; [by right|]. unfold three_tokens. by rewrite !append_assoc. }
    exists (n, tail). apply in_ends_CAT.
    exists (0%nat, three_tokens frequency project_name pipeline_name +:+ tail).
    split; [by apply in_ends_AT_BEGINNING|].
    apply in_ends_CAT.
    exists (String.length frequency,
            "-" +:+ project_name +:+ "-" +:+ pipeline_name +:+ tail).
    split.
    { apply in_ends_frequency. exists frequency. split; [done|]. split; [|done].
      simpl. unfold three_tokens. by rewrite !append_assoc. }
    apply in_ends_CAT.
    exists (S (String.length frequency), project_name +:+ "-" +:+ pipeline_name +:+ tail).
    split; [by apply in_ends_LITERAL|].
    apply in_ends_cat_word. exists ("-" +:+ pipeline_name +:+ tail). split; [done|].
    apply in_ends_CAT. exists (S (S (String.length frequency + String.length project_name)),
                               pipeline_name +:+ tail).
    split; [by apply in_ends_LITERAL|].
    apply in_ends_cat_word. exists tail. split; [done|].
    apply in_ends_CAT. exists (n, tail). split; [|by apply in_ends_EMPTY].
    apply in_ends_AT_END. split; [|done]. subst n. simpl. f_equal.
Qed.

(** *** The check of step 4 *)

Lemma frequency_hyphen_free frequency :
  In frequency frequencies → hyphen_free frequency = true.
Proof. intros [<- | [<- | [<- | [<- | [<- | []]]]]]; reflexivity. Qed.

Lemma three_tokens_split trigger_name frequency project pipeline :
  split hyphen trigger_name = [frequency; project; pipeline] →
  trigger_name = three_tokens frequency project pipeline.
Proof.
  intros Hsplit. rewrite <- (join_split hyphen trigger_name), Hsplit. reflexivity.
Qed.

Lemma split_three_tokens frequency project pipeline :
  hyphen_free frequency = true → hyphen_free project = true →
  hyphen_free pipeline = true →
  split hyphen (three_tokens frequency project pipeline) = [frequency; project; pipeline].
Proof.
  intros Hf Hp Hq.
  change (three_tokens frequency project pipeline)
    with (frequency +:+ String hyphen (project +:+ String hyphen pipeline)).
  by rewrite !split_append, split_hyphen_free.
Qed.

Lemma in_frequencies frequency :
  existsb (String.eqb frequency) frequencies = true ↔ In frequency frequencies.
Proof.
  rewrite existsb_exists. split.
  - by intros (x & Hx & ->%String.eqb_eq).
  - intros Hin. exists frequency. by rewrite String.eqb_refl.
Qed.

Lemma pattern_check (trigger_name project_name pipeline_name : string) :
  index (split hyphen trigger_name) 1 = Ret project_name →
  index (split hyphen trigger_name) (-1) = Ret pipeline_name →
  plain project_name = true → plain pipeline_name = true →
  re.match_ (trigger_pattern project_name pipeline_name) trigger_name
  = Ret (well_formed_trigger trigger_name).
Proof.
  intros Hproject Hpipeline Hp Hq.
  unfold re.match_. rewrite compile_trigger, bind_Ret by done. f_equal.
  apply eq_true_iff_eq. rewrite matches_trigger_re. unfold well_formed_trigger. split.
  - intros (frequency & Hin & Hname).
    assert (∃ last, split hyphen trigger_name = [frequency; project_name; last])
      as [last ->].
    { destruct Hname as [-> | ->]; eexists; apply split_three_tokens;
        auto using frequency_hyphen_free, plain_hyphen_free, hyphen_free_append. }
    by apply in_frequencies.
  - destruct (split hyphen trigger_name) as [|frequency [|a [|b [|]]]] eqn:Hsplit;
      try discriminate.
    intros Hin%in_frequencies. exists frequency. split; [done|]. left.
    vm_compute in Hproject, Hpipeline.
    injection Hproject as ->. injection Hpipeline as ->.
    by apply three_tokens_split.
Qed.

(** C4, as stated, fails: [Foo-bar-baz] and [Daily-a+b-c] have exactly
    three tokens and the check of step 4 rejects both, the first for its
    first token, the second because [a+b] is read as a pattern. *)
Lemma C4_counterexample :
  (split hyphen name_foo = ["Foo"; "bar"; "baz"]
   ∧ re.match_ (trigger_pattern "bar" "baz") name_foo = Ret false
   ∧ lint_trigger no_abbreviations name_foo "TumblingWindowTrigger"
     = Ret [msg_no_match name_foo (trigger_pattern "bar" "baz")])
  ∧ (split hyphen name_plus = ["Daily"; "a+b"; "c"]
     ∧ re.match_ (trigger_pattern "a+b" "c") name_plus = Ret false
     ∧ lint_trigger no_abbreviations name_plus "ScheduleTrigger"
       = Ret [msg_no_match name_plus (trigger_pattern "a+b" "c")]).
Proof. repeat split; vm_compute; reflexivity. Qed.

(** C4, amended: when the project and pipeline tokens of a trigger name
    hold no special character of the pattern language, the check of
    step 4 passes exactly when the name has three tokens of which the
    first is Daily, Hourly, Weekly, Monthly or File; the evaluator then
    returns what checks 1 and 2 report, and otherwise one violation more.
    So a name of exactly three such tokens passes if and only if it
    starts with a frequency word, and a name with extra segments between
    project and pipeline never passes. *)
Theorem C4_pattern_check (A : abbreviations)
    (trigger_name project_name pipeline_name : string) (trigger_type : json) :
  index (split hyphen trigger_name) 1 = Ret project_name →
  index (split hyphen trigger_name) (-1) = Ret pipeline_name →
  plain project_name = true →
  plain pipeline_name = true →
  re.match_ (trigger_pattern project_name pipeline_name) trigger_name
  = Ret (well_formed_trigger trigger_name)
  ∧ lint_trigger A trigger_name trigger_type
    = Ret (append_if (negb (well_formed_trigger trigger_name))
             (msg_no_match trigger_name (trigger_pattern project_name pipeline_name))
             (prefix_errors trigger_name trigger_type)).
Proof.
  intros Hproject Hpipeline Hp Hq.
  pose proof (pattern_check _ _ _ Hproject Hpipeline Hp Hq) as Hcheck.
  split; [done|].
  by rewrite (lint_trigger_str _ _ _ _ _ Hproject Hpipeline), Hcheck.
Qed.

Lemma C4_pattern_check_witness :
  re.match_ (trigger_pattern "SAPBW" "hilan") "Daily-SAPBW-hilan" = Ret true
  ∧ lint_trigger no_abbreviations "Daily-SAPBW-hilan" "ScheduleTrigger" = Ret [].
Proof.
  apply (C4_pattern_check no_abbreviations "Daily-SAPBW-hilan" "SAPBW" "hilan"
           "ScheduleTrigger");
    vm_compute; reflexivity.
Defined.

(** Three plain tokens behind a frequency word always pass. *)
Corollary three_tokens_pass (A : abbreviations) (frequency project pipeline : string)
    (trigger_type : json) :
  In frequency frequencies → plain project = true → plain pipeline = true →
  lint_trigger A (three_tokens frequency project pipeline) trigger_type
  = Ret (prefix_errors (three_tokens frequency project pipeline) trigger_type).
Proof.
  intros Hin Hp Hq.
  pose proof (split_three_tokens frequency project pipeline
                (frequency_hyphen_free _ Hin) (plain_hyphen_free _ Hp)
                (plain_hyphen_free _ Hq)) as Hsplit.
  assert (index (split hyphen (three_tokens frequency project pipeline)) 1 = Ret project)
    as Hproject by by rewrite Hsplit.
  assert (index (split hyphen (three_tokens frequency project pipeline)) (-1) = Ret pipeline)
    as Hpipeline by by rewrite Hsplit.
  rewrite (lint_trigger_str _ _ _ _ _ Hproject Hpipeline).
  rewrite (pattern_check _ _ _ Hproject Hpipeline Hp Hq), bind_Ret.
  unfold well_formed_trigger. rewrite Hsplit.
  by apply in_frequencies in Hin as ->.
Qed.

(** A segment too many between project and pipeline is reported. *)
Lemma extra_segment_rejected (A : abbreviations) :
  split hyphen name_four = ["Daily"; "a"; "b"; "c"]
  ∧ lint_trigger A name_four "ScheduleTrigger"
    = Ret [msg_no_match name_four (trigger_pattern "a" "c")].
Proof. split; vm_compute; reflexivity. Qed.

(** ** The classifier *)

Lemma key_in_container k v : is_container v = true → returns (key_in k v).
Proof. destruct v; try discriminate; intros _; apply returns_Ret. Qed.

Lemma key_in_not_container k v : is_container v = false → key_in k v = Raise TypeError.
Proof. by destruct v. Qed.

Lemma both_in_container a b v : is_container v = true → returns (both_in a b v).
Proof.
  intros Hv. unfold both_in.
  destruct (key_in_container a v Hv) as [has_a ->]. rewrite bind_Ret.
  destruct has_a; [by apply key_in_container|apply returns_Ret].
Qed.

Lemma identify_arm_pipeline doc t :
  doc !! "type" = Some (JStr t) →
  endswith (lower t) "/pipelines" = true →
  identify_adf_resource doc = Ret PIPELINE.
Proof.
  intros Htype Hsuffix. unfold identify_adf_resource.
  rewrite Htype. cbn [default from_option id str_lower]. by rewrite bind_Ret, Hsuffix.
Qed.

Lemma identify_classifiable doc :
  classifiable doc = true → returns (identify_adf_resource doc).
Proof.
  unfold classifiable, identify_adf_resource, arm_suffix.
  destruct (default (JStr EmptyString) (doc !! "type")) as [| | | |t| |]; try discriminate.
  cbn [str_lower]. rewrite bind_Ret.
  repeat (destruct (endswith (lower t) _); [intros _; apply returns_Ret|]).
  cbn [orb]. intros Hprops.
  destruct (key_in_container "activities" _ Hprops) as [b1 ->]. rewrite bind_Ret.
  destruct b1; [apply returns_Ret|].
  destruct (both_in_container "typeProperties" "linkedServiceName" _ Hprops) as [b2 ->].
  rewrite bind_Ret. destruct b2; [apply returns_Ret|].
  destruct (both_in_container "connectVia" "type" _ Hprops) as [b3 ->].
  rewrite bind_Ret. destruct b3; [apply returns_Ret|].
  destruct (both_in_container "pipelines" "type" _ Hprops) as [b4 ->].
  rewrite bind_Ret. destruct b4; apply returns_Ret.
Qed.

Lemma identify_not_classifiable doc :
  classifiable doc = false → raises (identify_adf_resource doc).
Proof.
  unfold classifiable, identify_adf_resource, arm_suffix.
  destruct (default (JStr EmptyString) (doc !! "type")) as [| | | |t| |];
    try (intros _; apply raises_Raise).
  cbn [str_lower]. rewrite bind_Ret.
  repeat (destruct (endswith (lower t) _); [discriminate|]).
  cbn [orb]. intros Hprops.
  rewrite (key_in_not_container _ _ Hprops). apply raises_Raise.
Qed.

Lemma identify_no_expected_field doc :
  no_expected_field doc = true → identify_adf_resource doc = Ret UNKNOWN.
Proof.
  unfold no_expected_field, identify_adf_resource, arm_suffix.
  intros [Htype Hprops]%andb_true_iff.
  assert (∃ t, default (JStr EmptyString) (doc !! "type") = JStr t
               ∧ endswith (lower t) "/pipelines" = false
               ∧ endswith (lower t) "/datasets" = false
               ∧ endswith (lower t) "/linkedservices" = false
               ∧ endswith (lower t) "/triggers" = false)
    as (t & -> & H1 & H2 & H3 & H4).
  { destruct (doc !! "type") as [[| | | |t| |]|]; try discriminate.
    - exists t. apply negb_true_iff in Htype.
      repeat (apply orb_false_iff in Htype as [Htype ?]). by repeat split.
    - by exists EmptyString. }
  cbn [str_lower]. rewrite bind_Ret, H1, H2, H3, H4.
  assert (∃ m, default (JObj ∅) (doc !! "properties") = JObj m
               ∧ has_key "activities" m = false
               ∧ has_key "typeProperties" m && has_key "linkedServiceName" m = false
               ∧ has_key "connectVia" m && has_key "type" m = false
               ∧ has_key "pipelines" m && has_key "type" m = false)
    as (m & -> & Ha & Hd & Hl & Ht).
  { destruct (doc !! "properties") as [[| | | | | |m]|]; try discriminate.
    - exists m. repeat (apply andb_true_iff in Hprops as [Hprops ?%negb_true_iff]).
      apply negb_true_iff in Hprops. by repeat split.
    - by exists ∅. }
  unfold both_in, key_in. fold (has_key "activities" m).
  fold (has_key "typeProperties" m). fold (has_key "linkedServiceName" m).
  fold (has_key "connectVia" m). fold (has_key "type" m). fold (has_key "pipelines" m).
  rewrite Ha, !bind_Ret.
  destruct (has_key "typeProperties" m); rewrite !bind_Ret;
    [simpl in Hd; rewrite Hd|]; rewrite ?bind_Ret;
    (destruct (has_key "connectVia" m); rewrite !bind_Ret;
     [simpl in Hl; rewrite Hl|]; rewrite ?bind_Ret;
     (destruct (has_key "pipelines" m); rewrite !bind_Ret;
      [simpl in Ht; rewrite ?Ht|]; by rewrite ?bind_Ret)).
Qed.

(** C6, as stated, fails: the classifier raises on a document whose
    [type] is not a string, and on one whose [properties] is [null]. *)
Lemma C6_counterexample :
  identify_adf_resource doc_numeric_type = Raise AttributeError
  ∧ identify_adf_resource doc_null_properties = Raise TypeError.
Proof. split; reflexivity. Qed.

(** C6, amended: a document whose [type] is a string that, in lower
    case, ends with [/pipelines] is a Pipeline whatever [properties]
    holds; the classifier returns exactly on the documents whose [type]
    is absent or a string and whose [properties], unless the suffix of
    [type] decides, is absent or a dict, a list or a string, and raises on
    the others; a document without the fields of any kind (no [type] with
    one of the four suffixes, no [properties] with the keys looked for)
    is Unknown. *)
Theorem C6_classifier :
  (∀ doc t,
     doc !! "type" = Some (JStr t) →
     endswith (lower t) "/pipelines" = true →
     identify_adf_resource doc = Ret PIPELINE)
  ∧ (∀ doc, classifiable doc = true → returns (identify_adf_resource doc))
  ∧ (∀ doc, classifiable doc = false → raises (identify_adf_resource doc))
  ∧ (∀ doc, no_expected_field doc = true → identify_adf_resource doc = Ret UNKNOWN).
Proof.
  split; [exact identify_arm_pipeline|].
  split; [exact identify_classifiable|].
  split; [exact identify_not_classifiable|exact identify_no_expected_field].
Qed.

Lemma C6_classifier_witness :
  identify_adf_resource doc_arm_pipeline = Ret PIPELINE
  ∧ returns (identify_adf_resource doc_raw_trigger)
  ∧ raises (identify_adf_resource doc_numeric_type)
  ∧ identify_adf_resource (∅ : gmap string json) = Ret UNKNOWN.
Proof.
  destruct C6_classifier as (Harm & Hret & Hraise & Hnone).
  split; [|split; [|split]].
  - apply (Harm doc_arm_pipeline "Microsoft.DataFactory/factories/Pipelines");
      vm_compute; reflexivity.
  - apply (Hret doc_raw_trigger). vm_compute; reflexivity.
  - apply (Hraise doc_numeric_type). vm_compute; reflexivity.
  - apply (Hnone ∅). vm_compute; reflexivity.
Defined.

(** ** The dispatcher on documents that lack a field *)

Lemma getitem_None (doc : gmap string json) k :
  doc !! k = None → getitem doc k = Raise KeyError.
Proof. unfold getitem. by intros ->. Qed.

Lemma getitem_Some (doc : gmap string json) k v :
  doc !! k = Some v → getitem doc k = Ret v.
Proof. unfold getitem. by intros ->. Qed.

Lemma dispatch_missing_field A kind doc :
  lacks_required_field kind doc = true →
  dispatch A kind doc = Raise KeyError.
Proof.
  unfold lacks_required_field, dispatch.
  destruct kind; try discriminate;
    destruct (doc !! "name") as [name|] eqn:Hname;
    rewrite ?(getitem_None _ _ Hname), ?(getitem_Some _ _ _ Hname), ?bind_Ret;
    try reflexivity;
    try (rewrite bool_decide_eq_true; discriminate).
  all: rewrite bool_decide_eq_false_2 by discriminate; cbn [orb].
  all: destruct (doc !! "properties") as [props|] eqn:Hprops;
    rewrite ?(getitem_None _ _ Hprops), ?(getitem_Some _ _ _ Hprops), ?bind_Ret;
    try reflexivity.
  all: destruct props as [| | | | | |m]; try discriminate.
  all: rewrite bool_decide_eq_true; intros Htype.
  all: cbn [subscript]; by rewrite (getitem_None _ _ Htype).
Qed.

(** Only the arm of the unknown kind does without [name]. *)
Lemma lint_resource_unknown_without_name A doc :
  identify_adf_resource doc = Ret UNKNOWN →
  doc !! "name" = None →
  lint_resource A doc = (["ADFResourceType.UNKNOWN"], Ret [msg_unknown "N/A"]).
Proof.
  intros Hkind Hname. unfold lint_resource, dispatch. by rewrite Hkind, Hname.
Qed.

(** C2, as stated, fails: a Dataset document without [properties.type]
    and a Pipeline document without [name] make the dispatcher raise
    [KeyError]; no violation is returned. *)
Lemma C2_counterexample :
  (identify_adf_resource doc_dataset_without_type = Ret DATASET
   ∧ lacks_required_field DATASET doc_dataset_without_type = true
   ∧ lint_resource no_abbreviations doc_dataset_without_type
     = (["ADFResourceType.DATASET"], Raise KeyError))
  ∧ (identify_adf_resource doc_pipeline_without_name = Ret PIPELINE
     ∧ lacks_required_field PIPELINE doc_pipeline_without_name = true
     ∧ lint_resource no_abbreviations doc_pipeline_without_name
       = (["ADFResourceType.PIPELINE"], Raise KeyError)).
Proof. repeat split; vm_compute; reflexivity. Qed.

(** C2, amended: when the document lacks a field that the evaluator of
    its kind is handed ([name] for every kind but Unknown,
    [properties] or its [type] for a Dataset or a Trigger), the
    dispatcher prints the kind and raises [KeyError]: the missing field is
    not turned into a violation. *)
Theorem C2_missing_field_raises (A : abbreviations) (doc : gmap string json)
    (kind : ADFResourceType) :
  identify_adf_resource doc = Ret kind →
  lacks_required_field kind doc = true →
  lint_resource A doc = ([ADFResourceType_str kind], Raise KeyError).
Proof.
  intros Hkind Hlacks. unfold lint_resource. rewrite Hkind.
  by rewrite dispatch_missing_field.
Qed.

Lemma C2_missing_field_raises_witness :
  lint_resource no_abbreviations doc_dataset_without_type
  = ([ADFResourceType_str DATASET], Raise KeyError).
Proof.
  apply (C2_missing_field_raises no_abbreviations doc_dataset_without_type DATASET);
    vm_compute; reflexivity.
Defined.

(** ** Independence of the Dataset abbreviations *)

(** C10: no evaluator reads the [Dataset] entry of the table: two
    tables that differ only there give the same result in [lint_dataset],
    for every name and format type, and in every other evaluator and in
    the dispatcher. *)
Theorem C10_dataset_abbreviations_unused (ls ds1 ds2 : list string) :
  let A1 := {| LinkedService := ls; Dataset := ds1 |} in
  let A2 := {| LinkedService := ls; Dataset := ds2 |} in
  (∀ ds_name dataset_type,
     lint_dataset A1 ds_name dataset_type = lint_dataset A2 ds_name dataset_type)
  ∧ (∀ ls_name, lint_linked_service A1 ls_name = lint_linked_service A2 ls_name)
  ∧ (∀ pipeline_name, lint_pipeline A1 pipeline_name = lint_pipeline A2 pipeline_name)
  ∧ (∀ trigger_name trigger_type,
       lint_trigger A1 trigger_name trigger_type
       = lint_trigger A2 trigger_name trigger_type)
  ∧ (∀ kv_name kv_type,
       lint_key_vault A1 kv_name kv_type = lint_key_vault A2 kv_name kv_type)
  ∧ (∀ resource_json, lint_resource A1 resource_json = lint_resource A2 resource_json).
Proof. repeat split. Qed.

(** * Further properties *)

(** ** Prefixes, suffixes and tokens *)

Lemma startswith_iff s p : startswith s p = true ↔ ∃ r, s = p +:+ r.
Proof.
  unfold startswith. revert s. induction p as [|x p IH]; intros s.
  - split; [intros _; by exists s|]. by destruct s.
  - destruct s as [|y s]; simpl.
    + split; [done|]. intros [r Hr]. discriminate Hr.
    + destruct (ascii_dec x y) as [-> | Hxy].
      * rewrite IH. split; intros [r Hr]; exists r.
        -- by rewrite append_cons, <- Hr.
        -- rewrite append_cons in Hr. congruence.
      * split; [done|]. intros [r Hr]. rewrite append_cons in Hr. congruence.
Qed.

Lemma endswith_cons x s p :
  endswith (String x s) p = String.eqb (String x s) p || endswith s p.
Proof. reflexivity. Qed.

Lemma endswith_iff s p : endswith s p = true ↔ ∃ r, s = r +:+ p.
Proof.
  induction s as [|x s IH].
  - change (endswith EmptyString p) with (String.eqb EmptyString p || false).
    rewrite orb_false_r, String.eqb_eq. split.
    + intros <-. by exists EmptyString.
    + intros [[|y r] Hr]; [done|]. rewrite append_cons in Hr. discriminate Hr.
  - rewrite endswith_cons, orb_true_iff, String.eqb_eq, IH. split.
    + intros [<- | [r ->]]; [by exists EmptyString|]. by exists (String x r).
    + intros [[|y r] Hr]; [by left|]. right. exists r.
      rewrite append_cons in Hr. congruence.
Qed.

Lemma free_hyphen s : free hyphen s = hyphen_free s.
Proof. reflexivity. Qed.

Lemma free_append sep s t : free sep (s +:+ t) = free sep s && free sep t.
Proof.
  unfold free. induction s as [|x s IH]; [done|].
  rewrite append_cons. simpl. by rewrite IH, andb_assoc.
Qed.

Lemma split_free sep s : free sep s = true → split sep s = [s].
Proof.
  unfold free. induction s as [|x s IH]; [done|]. simpl.
  intros [Hx Hs]%andb_true_iff. apply negb_true_iff in Hx. by rewrite Hx, IH.
Qed.

(** Splitting commutes with cutting at a separator. *)
Lemma split_at sep s t :
  split sep (s +:+ String sep t) = (split sep s ++ split sep t)%list.
Proof.
  induction s as [|x s IH].
  { change (EmptyString +:+ String sep t) with (String sep t).
    simpl. by rewrite Ascii.eqb_refl. }
  rewrite append_cons. simpl. rewrite IH.
  destruct (Ascii.eqb x sep); [done|].
  pose proof (split_not_nil sep s). by destruct (split sep s).
Qed.

Lemma split_tokens_free sep s : Forall (λ tok, free sep tok = true) (split sep s).
Proof.
  induction s as [|x s IH]; simpl; [by repeat constructor|].
  destruct (Ascii.eqb x sep) eqn:Hx; [by constructor|].
  pose proof (split_not_nil sep s). destruct (split sep s) as [|tok toks]; [done|].
  inversion IH as [|? ? Htok Htoks]; subst. constructor; [|done].
  unfold free in *. simpl. by rewrite Hx.
Qed.

Lemma join_cons sep x y l :
  join sep (x :: y :: l) = x +:+ sep +:+ join sep (y :: l).
Proof. reflexivity. Qed.

Lemma join_app sep l1 l2 :
  l1 ≠ [] → l2 ≠ [] →
  join sep (l1 ++ l2) = join sep l1 +:+ sep +:+ join sep l2.
Proof.
  intros H1 H2. induction l1 as [|x [|y l1] IH]; [done| |].
  - destruct l2 as [|z l2]; [done|]. reflexivity.
  - change ((x :: y :: l1) ++ l2)%list with (x :: y :: (l1 ++ l2))%list.
    rewrite !join_cons. change (y :: (l1 ++ l2))%list with ((y :: l1) ++ l2)%list.
    rewrite IH by done. by rewrite !append_assoc.
Qed.

(** Splitting what was joined gives the tokens back. *)
Lemma split_join sep toks :
  toks ≠ [] → Forall (λ tok, free sep tok = true) toks →
  split sep (join (String sep EmptyString) toks) = toks.
Proof.
  intros Hnil Hfree. induction Hfree as [|x [|y l] Hx Hl IH]; [done| |].
  - by apply split_free.
  - rewrite join_cons. change (String sep EmptyString +:+ ?s) with (String sep s).
    rewrite split_at, split_free, IH by done. reflexivity.
Qed.

(** ** One or more characters of a set *)

Lemma in_rounds_IN negate set k c c' :
  In c' (rounds (re.ends (re.IN negate set)) k c)
  ↔ ∃ w, String.length w = k
         ∧ forallb (λ x, xorb negate (admits set x)) (list_ascii_of_string w) = true
         ∧ c.2 = w +:+ c'.2 ∧ c'.1 = (c.1 + k)%nat.
Proof.
  revert c. induction k as [|k IH]; intros c; cbn [rounds].
  - split.
    + intros [<- | []]. exists EmptyString. repeat split. lia.
    + intros ([|x w] & Hlen & _ & Hw & Hn); [|done]. left.
      destruct c, c'. simpl in *. subst. f_equal. lia.
  - rewrite in_flat_map. split.
    + intros (c1 & (x & Hx & Hok & Hn1)%in_ends_IN & (w & Hlen & Hw & Hrest & Hn)%IH).
      exists (String x w). simpl. rewrite Hlen, Hw, Hx, Hrest, Hn, Hn1.
      unfold admits. rewrite Hok. repeat split. lia.
    + intros ([|x w] & Hlen & Hok & Hw & Hn); [done|]. simpl in Hok.
      apply andb_true_iff in Hok as [Hx Hok]. injection Hlen as Hlen.
      exists (S c.1, w +:+ c'.2). split.
      * apply in_ends_IN. exists x. by rewrite Hw.
      * apply IH. exists w. simpl. repeat split; [done..|lia].
Qed.

(** [set+] reads a non-empty text of characters of the set. *)
Lemma in_ends_plus greedy set c c' :
  In c' (re.ends (re.REPEAT greedy 1 None (re.IN false set)) c)
  ↔ ∃ w, w ≠ EmptyString ∧ all_in set w = true
         ∧ c.2 = w +:+ c'.2 ∧ c'.1 = (c.1 + String.length w)%nat.
Proof.
  rewrite in_ends_REPEAT. split.
  - intros (k & Hk & _ & (w & Hlen & Hok & Hw & Hn)%in_rounds_IN).
    exists w. subst k. repeat split; try done. intros ->. simpl in Hk. lia.
  - intros (w & Hne & Hok & Hw & Hn). exists (String.length w).
    split; [destruct w; [done|simpl; lia]|]. split; [done|].
    apply in_rounds_IN. by exists w.
Qed.

Lemma line_end_iff s :
  line_end s = true ↔ s = EmptyString ∨ s = String newline EmptyString.
Proof. unfold line_end. by rewrite orb_true_iff, !String.eqb_eq. Qed.

Lemma all_in_append set s t : all_in set (s +:+ t) = all_in set s && all_in set t.
Proof.
  unfold all_in. induction s as [|x s IH]; [done|].
  rewrite append_cons. simpl. by rewrite IH, andb_assoc.
Qed.

Lemma append_nil_inv (s t : string) : s +:+ t = EmptyString → s = EmptyString.
Proof. by destruct s. Qed.

(** *** The pattern of the detail segment *)

Lemma compile_detail : re.compile detail_pattern = Ret detail_re.
Proof. vm_compute. reflexivity. Qed.

(** [^[A-Z0-9_]+$] accepts the non-empty texts of capitals, digits and
    underscores, and these followed by one line feed. *)
Lemma matches_detail d :
  re.matches detail_re d = true
  ↔ ∃ w tail, d = w +:+ tail ∧ w ≠ EmptyString
              ∧ all_in detail_set w = true ∧ line_end tail = true.
Proof.
  rewrite matches_true. unfold detail_re. split.
  - intros [c Hc].
    apply in_ends_CAT in Hc as (c0 & [-> _]%in_ends_AT_BEGINNING & Hc).
    apply in_ends_CAT in Hc as (c1 & (w & Hne & Hok & Hw & _)%in_ends_plus & Hc).
    apply in_ends_CAT in Hc as (c2 & [-> Hend]%in_ends_AT_END & _).
    exists w, c1.2. repeat split; try done. by apply line_end_iff.
  - intros (w & tail & -> & Hne & Hok & Hend%line_end_iff).
    exists (String.length w, tail). apply in_ends_CAT. exists (0%nat, w +:+ tail).
    split; [by apply in_ends_AT_BEGINNING|].
    apply in_ends_CAT. exists (String.length w, tail). split.
    + apply in_ends_plus. by exists w.
    + apply in_ends_CAT. exists (String.length w, tail).
      split; [by apply in_ends_AT_END|by apply in_ends_EMPTY].
Qed.

(** *** The patterns of pipeline names *)

Lemma name_char_set : name_char = re.IN false name_set.
Proof. reflexivity. Qed.

(** [(_[A-Za-z0-9_]+)?_[A-Za-z0-9_]+$]: the optional group adds nothing,
    its underscore being a character of the set. *)
Lemma segments_inv c c' :
  In c' (re.ends segments c)
  → ∃ w, c.2 = String underscore w +:+ c'.2 ∧ w ≠ EmptyString
         ∧ all_in name_set w = true ∧ line_end c'.2 = true.
Proof.
  unfold segments. rewrite name_char_set. intros Hc.
  apply in_ends_CAT in Hc as (c1 & Hopt & Hc).
  read_literal Hc c2 H2.
  apply in_ends_CAT in Hc as (c3 & (w & Hne & Hok & Hw & _)%in_ends_plus & Hc).
  apply in_ends_CAT in Hc as (c4 & [-> Hend%line_end_iff]%in_ends_AT_END & ->%in_ends_EMPTY).
  apply in_ends_REPEAT in Hopt as ([|[|k]] & _ & Hk & Hopt); simpl in Hk; [| |lia].
  - destruct Hopt as [<- | []]. exists w. by rewrite H2, Hw.
  - cbn [rounds] in Hopt. apply in_flat_map in Hopt as (c5 & Hopt & [<- | []]).
    apply in_ends_SUBPATTERN in Hopt. read_literal Hopt c6 H6.
    apply in_ends_CAT in Hopt as (c7 & (v & Hvne & Hvok & Hv & _)%in_ends_plus & ->%in_ends_EMPTY).
    exists (v +:+ String underscore w). rewrite H6, Hv, H2, Hw.
    split; [by rewrite append_cons, append_assoc|].
    split; [intros Hnil%append_nil_inv; done|].
    split; [|done]. rewrite all_in_append, Hvok. simpl.
    change (all_in name_set (String underscore w))
      with (admits name_set underscore && all_in name_set w).
    by rewrite Hok.
Qed.

Lemma segments_intro n w tail :
  w ≠ EmptyString → all_in name_set w = true → line_end tail = true →
  In ((S n + String.length w)%nat, tail)
     (re.ends segments (n, String underscore w +:+ tail)).
Proof.
  intros Hne Hok Hend%line_end_iff. unfold segments. rewrite name_char_set.
  apply in_ends_CAT. exists (n, String underscore w +:+ tail). split.
  { apply in_ends_REPEAT. exists 0%nat. split; [lia|]. split; [simpl; lia|by left]. }
  apply in_ends_CAT. exists (S n, w +:+ tail). split; [by apply in_ends_LITERAL|].
  apply in_ends_CAT. exists ((S n + String.length w)%nat, tail). split.
  { apply in_ends_plus. by exists w. }
  apply in_ends_CAT. exists ((S n + String.length w)%nat, tail).
  split; [by apply in_ends_AT_END|by apply in_ends_EMPTY].
Qed.

Lemma in_ends_three_digits c c' :
  In c' (re.ends (re.REPEAT true 3 (Some 3) digit) c)
  ↔ ∃ d, String.length d = 3%nat ∧ digits d = true
         ∧ c.2 = d +:+ c'.2 ∧ c'.1 = (c.1 + 3)%nat.
Proof.
  assert (∀ d, forallb (λ x, xorb false (admits [re.CategoryDigit] x))
                 (list_ascii_of_string d) = digits d) as Hdigits.
  { intros d. unfold digits, admits.
    induction (list_ascii_of_string d) as [|x l IH]; [done|].
    cbn [forallb]. rewrite IH. simpl. by rewrite orb_false_r. }
  unfold digit. rewrite in_ends_REPEAT. split.
  - intros (k & Hmin & Hmax & (d & Hlen & Hok & Hd & Hn)%in_rounds_IN).
    simpl in Hmax. assert (k = 3%nat) as -> by lia.
    exists d. by rewrite <- Hdigits.
  - intros (d & Hlen & Hok & Hd & Hn). exists 3%nat.
    split; [lia|]. split; [simpl; lia|].
    apply in_rounds_IN. exists d. by rewrite Hdigits.
Qed.

Lemma in_ends_sequence_number c c' :
  In c' (re.ends sequence_number c)
  ↔ ∃ n1 n2, c.2 = String n1 (String n2 c'.2) ∧ sequence_digits n1 n2 = true
             ∧ c'.1 = S (S c.1).
Proof.
  unfold sequence_number, sequence_digits.
  rewrite in_ends_SUBPATTERN, in_ends_BRANCH, !in_ends_CAT. split.
  - intros [(c1 & [H1 Hn1]%in_ends_LITERAL & Hc) | (c1 & (n1 & H1 & Hok1 & Hn1)%in_ends_IN & Hc)];
      apply in_ends_CAT in Hc as (c2 & (n2 & H2 & Hok2 & Hn2)%in_ends_IN & ->%in_ends_EMPTY).
    + change (between 49 57 n2 || false = true) in Hok2. rewrite orb_false_r in Hok2.
      exists "0"%char, n2. rewrite H1, H2, Hok2, Hn2, Hn1. by repeat split.
    + change (between 48 57 n2 || false = true) in Hok2. rewrite orb_false_r in Hok2.
      change (between 49 57 n1 || false = true) in Hok1. rewrite orb_false_r in Hok1.
      exists n1, n2. rewrite H1, H2, Hok1, Hok2, Hn2, Hn1.
      repeat split. apply orb_true_r.
  - intros (n1 & n2 & Hc & Hok & Hn).
    apply orb_true_iff in Hok as [[->%Ascii.eqb_eq H2]%andb_true_iff | [H1 H2]%andb_true_iff].
    + left. exists (S c.1, String n2 c'.2). split; [by apply in_ends_LITERAL|].
      apply in_ends_CAT. exists c'. split; [|by apply in_ends_EMPTY].
      apply in_ends_IN. exists n2.
      change (String n2 c'.2 = String n2 c'.2 ∧ between 49 57 n2 || false = true
              ∧ c'.1 = S (S c.1)). by rewrite H2.
    + right. exists (S c.1, String n2 c'.2). split.
      * apply in_ends_IN. exists n1.
        change (c.2 = String n1 (String n2 c'.2) ∧ between 49 57 n1 || false = true
                ∧ S c.1 = S c.1). by rewrite H1.
      * apply in_ends_CAT. exists c'. split; [|by apply in_ends_EMPTY].
        apply in_ends_IN. exists n2.
        change (String n2 c'.2 = String n2 c'.2 ∧ between 48 57 n2 || false = true
                ∧ c'.1 = S (S c.1)). by rewrite H2.
Qed.

(** The master pattern accepts three digits, [_00_Master_], a non-empty
    text of letters, digits and underscores, and at most a line feed. *)
Lemma matches_master s :
  re.matches master_re s = true
  ↔ ∃ d w tail, s = d +:+ "_00_Master_" +:+ w +:+ tail
                ∧ String.length d = 3%nat ∧ digits d = true
                ∧ w ≠ EmptyString ∧ all_in name_set w = true ∧ line_end tail = true.
Proof.
  rewrite matches_true. unfold master_re. split.
  - intros [c Hc].
    apply in_ends_CAT in Hc as (c0 & [-> _]%in_ends_AT_BEGINNING & Hc).
    apply in_ends_CAT in Hc as (c1 & (d & Hlen & Hd & Hs & _)%in_ends_three_digits & Hc).
    apply in_ends_cat_word in Hc as (rest & Hrest & (w & Hw & Hne & Hok & Hend)%segments_inv).
    exists d, w, c.2. simpl in *. rewrite Hs, Hrest, Hw.
    repeat split; done.
  - intros (d & w & tail & -> & Hlen & Hd & Hne & Hok & Hend).
    exists ((S (3 + 10) + String.length w)%nat, tail).
    apply in_ends_CAT. exists (0%nat, d +:+ "_00_Master_" +:+ w +:+ tail).
    split; [by apply in_ends_AT_BEGINNING|].
    apply in_ends_CAT. exists (3%nat, "_00_Master_" +:+ w +:+ tail). split.
    { apply in_ends_three_digits. by exists d. }
    apply in_ends_cat_word. exists (String underscore w +:+ tail). split; [done|].
    by apply segments_intro.
Qed.

(** The sub pattern accepts three digits, an underscore, a number from
    [01] to [99], an underscore, a non-empty text of letters, digits and
    underscores, and at most a line feed. *)
Lemma matches_sub s :
  re.matches sub_re s = true
  ↔ ∃ d n1 n2 w tail,
      s = d +:+ String underscore (String n1 (String n2 (String underscore w))) +:+ tail
      ∧ String.length d = 3%nat ∧ digits d = true ∧ sequence_digits n1 n2 = true
      ∧ w ≠ EmptyString ∧ all_in name_set w = true ∧ line_end tail = true.
Proof.
  rewrite matches_true. unfold sub_re. split.
  - intros [c Hc].
    apply in_ends_CAT in Hc as (c0 & [-> _]%in_ends_AT_BEGINNING & Hc).
    apply in_ends_CAT in Hc as (c1 & (d & Hlen & Hd & Hs & _)%in_ends_three_digits & Hc).
    read_literal Hc c2 H2.
    apply in_ends_CAT in Hc as (c3 & (n1 & n2 & H3 & Hseq & _)%in_ends_sequence_number & Hc).
    apply segments_inv in Hc as (w & Hw & Hne & Hok & Hend).
    exists d, n1, n2, w, c.2. simpl in *. rewrite Hs, H2, H3, Hw.
    repeat split; done.
  - intros (d & n1 & n2 & w & tail & -> & Hlen & Hd & Hseq & Hne & Hok & Hend).
    exists ((S 6 + String.length w)%nat, tail).
    apply in_ends_CAT. eexists (0%nat, _). split; [by apply in_ends_AT_BEGINNING|].
    apply in_ends_CAT.
    exists (3%nat, String underscore (String n1 (String n2 (String underscore w))) +:+ tail).
    split. { apply in_ends_three_digits. by exists d. }
    apply in_ends_CAT. exists (4%nat, String n1 (String n2 (String underscore w)) +:+ tail).
    split; [by apply in_ends_LITERAL|].
    apply in_ends_CAT. exists (6%nat, String underscore w +:+ tail). split.
    { apply in_ends_sequence_number. by exists n1, n2. }
    by apply segments_intro.
Qed.

(** ** The pipeline evaluator: the names it accepts *)

Lemma lint_pipeline_str A (pipeline_name : string) :
  lint_pipeline A pipeline_name
  = Ret (pipeline_errors (re.matches master_re pipeline_name)
                         (re.matches sub_re pipeline_name) pipeline_name).
Proof.
  unfold lint_pipeline, pipeline_errors. rewrite match_master, bind_Ret.
  destruct (re.matches master_re pipeline_name) eqn:Hmaster.
  - by rewrite (master_not_sub _ Hmaster).
  - rewrite match_sub, bind_Ret.
    by destruct (re.matches sub_re pipeline_name), (contains pipeline_name "Master").
Qed.

(** X1: [lint_pipeline] accepts exactly the names made of three digits,
    [_00_Master_] and a non-empty run of letters, digits and underscores,
    and the names made of three digits, an underscore, a number from [01]
    to [99], an underscore and such a run that do not hold [Master]; in
    both cases one line feed may follow. *)
Theorem lint_pipeline_accepts (A : abbreviations) (pipeline_name : string) :
  lint_pipeline A pipeline_name = Ret []
  ↔ (∃ d w tail,
       pipeline_name = d +:+ "_00_Master_" +:+ w +:+ tail
       ∧ String.length d = 3%nat ∧ digits d = true
       ∧ w ≠ EmptyString ∧ all_in name_set w = true ∧ line_end tail = true)
    ∨ (contains pipeline_name "Master" = false
       ∧ ∃ d n1 n2 w tail,
           pipeline_name
           = d +:+ String underscore (String n1 (String n2 (String underscore w))) +:+ tail
           ∧ String.length d = 3%nat ∧ digits d = true ∧ sequence_digits n1 n2 = true
           ∧ w ≠ EmptyString ∧ all_in name_set w = true ∧ line_end tail = true).
Proof.
  rewrite lint_pipeline_str, <- matches_master, <- matches_sub. unfold pipeline_errors.
  destruct (re.matches master_re pipeline_name) eqn:Hmaster.
  - rewrite (master_not_sub _ Hmaster). simpl. split; [by left|done].
  - destruct (re.matches sub_re pipeline_name),
             (contains pipeline_name "Master"); simpl; split; try done.
    + by intros [? | [? _]].
    + by right.
    + by intros [? | [_ ?]].
    + by intros [? | [_ ?]].
Qed.

(** ** The dataset evaluator: the names it accepts *)

Lemma slice_middle {A} (a b z : A) (mid : list A) :
  slice (a :: b :: mid ++ [z]) 2 (-1) = mid.
Proof.
  unfold slice, clip. change (2 <? 0)%Z with false. change (-1 <? 0)%Z with true.
  cbv iota. rewrite !length_cons, length_app. simpl length.
  replace (Z.to_nat (Z.min 2 _)) with 2%nat by lia.
  replace (Z.to_nat _) with (length mid) by lia.
  simpl. apply take_app_length.
Qed.

Lemma FORMAT_MAPPING_values dataset_type expected_format :
  FORMAT_MAPPING !! dataset_type = Some expected_format →
  expected_format ≠ EmptyString ∧ free underscore expected_format = true.
Proof.
  intros Hget%elem_of_list_to_map_2.
  repeat (apply elem_of_cons in Hget as [[= _ ->] | Hget]; [by split|]).
  by apply elem_of_nil in Hget.
Qed.

Lemma match_detail (s : string) :
  re.match_ detail_pattern s = Ret (re.matches detail_re s).
Proof. unfold re.match_. by rewrite compile_detail. Qed.

Lemma append_if_nil cond msg errors :
  append_if cond msg errors = [] ↔ cond = false ∧ errors = [].
Proof.
  destruct cond; simpl; split; try done.
  - intros [_ [=]]%app_eq_nil.
  - by intros [? _].
  - by intros [_ ?].
Qed.

(** The prefix test in terms of tokens. *)
Lemma startswith_token s tok sep :
  free sep tok = true →
  startswith s (tok +:+ String sep EmptyString) = true
  ↔ ∃ toks, toks ≠ [] ∧ split sep s = tok :: toks.
Proof.
  intros Hfree. rewrite startswith_iff. split.
  - intros [r ->]. exists (split sep r). split; [apply split_not_nil|].
    rewrite append_assoc. change (String sep EmptyString +:+ r) with (String sep r).
    by rewrite split_at, split_free.
  - intros (toks & Hne & Hsplit). destruct toks as [|tok' toks]; [done|].
    exists (join (String sep EmptyString) (tok' :: toks)).
    rewrite <- (join_split sep s), Hsplit, join_cons. by rewrite append_assoc.
Qed.

(** The suffix test in terms of tokens. *)
Lemma endswith_token s tok sep :
  free sep tok = true →
  endswith s (String sep EmptyString +:+ tok) = true
  ↔ ∃ toks, toks ≠ [] ∧ split sep s = (toks ++ [tok])%list.
Proof.
  intros Hfree. rewrite endswith_iff. split.
  - intros [r ->]. exists (split sep r). split; [apply split_not_nil|].
    change (String sep EmptyString +:+ tok) with (String sep tok).
    by rewrite split_at, (split_free _ tok).
  - intros (toks & Hne & Hsplit). exists (join (String sep EmptyString) toks).
    rewrite <- (join_split sep s), Hsplit. by rewrite join_app.
Qed.

Lemma lint_dataset_checks A (ds_name dataset_type : string) :
  lint_dataset A ds_name dataset_type = Ret []
  ↔ startswith ds_name "DS_" = true
    ∧ match FORMAT_MAPPING !! dataset_type with
      | Some expected_format => endswith ds_name ("_" +:+ expected_format) = true
      | None => True
      end
    ∧ re.matches detail_re (join "_" (slice (split "_" ds_name) 2 (-1))) = true.
Proof.
  rewrite lint_dataset_str, match_detail, bind_Ret. split.
  - intros [= [Hdetail%negb_false_iff Hrest]%append_if_nil].
    destruct (FORMAT_MAPPING !! dataset_type) as [expected_format|] eqn:Hget.
    + apply append_if_nil in Hrest as [Hsuffix [Hprefix%negb_false_iff _]%append_if_nil].
      destruct (FORMAT_MAPPING_values _ _ Hget) as [Hne%String.eqb_neq _].
      rewrite Hne in Hsuffix. simpl in Hsuffix. by apply negb_false_iff in Hsuffix.
    + by apply append_if_nil in Hrest as [Hprefix%negb_false_iff _].
  - intros (Hprefix & Hsuffix & Hdetail). rewrite Hdetail, Hprefix. simpl.
    destruct (FORMAT_MAPPING !! dataset_type); [|done].
    by rewrite Hsuffix, andb_false_r.
Qed.

(** The accepted names, token by token. *)
Lemma lint_dataset_shape (A : abbreviations) (ds_name dataset_type : string) :
  lint_dataset A ds_name dataset_type = Ret []
  ↔ ∃ system mid format,
      split underscore ds_name = ("DS" :: system :: mid ++ [format])%list
      ∧ detail_ok (join "_" mid)
      ∧ format_ok dataset_type format.
Proof.
  rewrite lint_dataset_checks, matches_detail. fold (detail_ok).
  change "DS_" with ("DS" +:+ String underscore EmptyString).
  rewrite (startswith_token _ "DS" underscore) by done. unfold format_ok. split.
  - intros ((toks & Hne & Hsplit) & Hsuffix & Hdetail).
    change (split "_" ds_name) with (split underscore ds_name) in Hdetail.
    assert (∃ system mid format, toks = (system :: mid ++ [format])%list)
      as (system & mid & format & ->).
    { destruct toks as [|system rest]; [done|]. exists system.
      destruct rest as [|y rest _] using rev_ind; [|by exists rest, y].
      rewrite Hsplit in Hdetail. destruct Hdetail as (w & tail & Hw & Hnil & _).
      destruct w; [done|discriminate Hw]. }
    exists system, mid, format. split; [done|].
    rewrite Hsplit, slice_middle in Hdetail. split; [done|].
    destruct (FORMAT_MAPPING !! dataset_type) as [expected_format|] eqn:Hget; [|done].
    destruct (FORMAT_MAPPING_values _ _ Hget) as [_ Hfree].
    change ("_" +:+ expected_format)
      with (String underscore EmptyString +:+ expected_format) in Hsuffix.
    apply endswith_token in Hsuffix as (toks & _ & Htoks); [|done].
    rewrite Hsplit in Htoks.
    change ("DS" :: system :: mid ++ [format])%list
      with (("DS" :: system :: mid) ++ [format])%list in Htoks.
    by apply app_inj_tail in Htoks as [_ ->].
  - intros (system & mid & format & Hsplit & Hdetail & Hformat).
    split; [by exists (system :: mid ++ [format])%list|].
    change (split "_" ds_name) with (split underscore ds_name).
    rewrite Hsplit, slice_middle. split; [|done].
    destruct (FORMAT_MAPPING !! dataset_type) as [expected_format|] eqn:Hget; [|done].
    destruct (FORMAT_MAPPING_values _ _ Hget) as [_ Hfree]. subst format.
    change ("_" +:+ expected_format)
      with (String underscore EmptyString +:+ expected_format).
    apply endswith_token; [done|]. by exists ("DS" :: system :: mid)%list.
Qed.

(** X2: [lint_dataset] accepts exactly the names whose tokens between
    underscores are [DS], any token, a detail segment and the format:
    the detail is a non-empty text of capitals, digits and underscores
    (one line feed may end it) and the format is the suffix mapped to the
    format type, or any token when the type is not mapped. *)
Theorem lint_dataset_accepts (A : abbreviations) (ds_name dataset_type : string) :
  lint_dataset A ds_name dataset_type = Ret []
  ↔ ∃ system mid format,
      split underscore ds_name = ("DS" :: system :: mid ++ [format])%list
      ∧ detail_ok (join "_" mid)
      ∧ format_ok dataset_type format.
Proof. apply lint_dataset_shape. Qed.

Lemma lint_dataset_system_any A (ds_name dataset_type t0 system system' : string) rest :
  split underscore ds_name = t0 :: system :: rest →
  free underscore system' = true →
  lint_dataset A ds_name dataset_type = Ret [] →
  lint_dataset A (join "_" (t0 :: system' :: rest)) dataset_type = Ret [].
Proof.
  intros Hsplit Hfree (sys & mid & format & Htoks & Hdetail & Hformat)%lint_dataset_shape.
  rewrite Hsplit in Htoks. injection Htoks as -> -> ->.
  apply lint_dataset_shape. exists system', mid, format. split; [|done].
  pose proof (split_tokens_free underscore ds_name) as Hall. rewrite Hsplit in Hall.
  apply split_join; [done|].
  inversion Hall as [|? ? H0 Hall']; subst. inversion Hall' as [|? ? H1 Hrest]; subst.
  by repeat constructor.
Qed.

(** X3: [lint_dataset] does not look at the second token of a name:
    replacing it by any text without underscore leaves an accepted name
    accepted and a reported name reported. *)
Theorem lint_dataset_ignores_system (A : abbreviations)
    (ds_name dataset_type t0 system system' : string) (rest : list string) :
  split underscore ds_name = t0 :: system :: rest →
  free underscore system' = true →
  lint_dataset A ds_name dataset_type = Ret []
  ↔ lint_dataset A (join "_" (t0 :: system' :: rest)) dataset_type = Ret [].
Proof.
  intros Hsplit Hfree. split; [by apply (lint_dataset_system_any A _ _ t0 system system' rest)|].
  pose proof (split_tokens_free underscore ds_name) as Hall. rewrite Hsplit in Hall.
  inversion Hall as [|? ? H0 Hall']; subst. inversion Hall' as [|? ? H1 Hrest]; subst.
  intros Hok.
  rewrite <- (join_split underscore ds_name), Hsplit.
  apply (lint_dataset_system_any A (join "_" (t0 :: system' :: rest)) _ t0 system' system rest);
    [|done..].
  apply split_join; [done|]. by repeat constructor.
Qed.

Lemma lint_dataset_ignores_system_witness :
  lint_dataset no_abbreviations "DS_SQL_CUSTOMERS_CSV" "DelimitedText" = Ret []
  ↔ lint_dataset no_abbreviations "DS_anything at all_CUSTOMERS_CSV" "DelimitedText" = Ret [].
Proof.
  apply (lint_dataset_ignores_system no_abbreviations "DS_SQL_CUSTOMERS_CSV"
           "DelimitedText" "DS" "SQL" "anything at all" ["CUSTOMERS"; "CSV"]);
    vm_compute; reflexivity.
Defined.

(** ** The linked-service evaluator: what the table must hold *)

Lemma prefix_comparable (a b x y : string) :
  a +:+ x = b +:+ y → startswith a b = true ∨ startswith b a = true.
Proof.
  revert b. induction a as [|c a IH]; intros [|d b] Heq.
  - by left.
  - right. by apply startswith_iff; exists (String d b).
  - left. by apply startswith_iff; exists (String c a).
  - rewrite !append_cons in Heq. injection Heq as -> Heq.
    destruct (IH b Heq) as [[r ->]%startswith_iff | [r ->]%startswith_iff].
    + left. apply startswith_iff. by exists r.
    + right. apply startswith_iff. by exists r.
Qed.

(** X4: a linked-service name passes only through an abbreviation that
    starts with [LS_] or is the beginning of [LS_]: when the table holds
    none, every name is reported. *)
Theorem lint_linked_service_needs_LS (A : abbreviations) (ls_name : string) :
  forallb (λ prefix, negb (fits_LS prefix)) (LinkedService A) = true →
  ∃ errors,
    lint_linked_service A ls_name = Ret errors
    ∧ (In msg_ls_prefix errors ∨ In (msg_ls_unknown ls_name) errors).
Proof.
  intros Hnone. rewrite lint_linked_service_str. eexists. split; [reflexivity|].
  destruct (startswith ls_name "LS_") eqn:HLS; [right|left].
  - assert (existsb (startswith ls_name) (LinkedService A) = false) as ->; [|by left].
    apply not_true_is_false. intros (prefix & Hin & Hprefix)%existsb_exists.
    rewrite forallb_forall in Hnone. specialize (Hnone prefix Hin).
    apply negb_true_iff in Hnone. unfold fits_LS in Hnone.
    apply orb_false_iff in Hnone as [H1 H2].
    apply startswith_iff in HLS as [r Hr]. apply startswith_iff in Hprefix as [r' Hr'].
    rewrite Hr in Hr'. destruct (prefix_comparable _ _ _ _ Hr'); congruence.
  - simpl. destruct (existsb _ _); simpl; auto.
Qed.

Lemma lint_linked_service_needs_LS_witness :
  ∃ errors,
    lint_linked_service {| LinkedService := ["ADLS"; "SQL"; "KV"]; Dataset := [] |}
                        "LS_ADLS_LZ_ONPREMIR" = Ret errors
    ∧ (In msg_ls_prefix errors ∨ In (msg_ls_unknown "LS_ADLS_LZ_ONPREMIR") errors).
Proof.
  apply (lint_linked_service_needs_LS
           {| LinkedService := ["ADLS"; "SQL"; "KV"]; Dataset := [] |}
           "LS_ADLS_LZ_ONPREMIR").
  vm_compute; reflexivity.
Defined.

(** X5: a larger table never adds a violation: what is reported with
    the abbreviations of [A'] is reported with those of [A] when [A']
    holds all the abbreviations of [A]. *)
Theorem lint_linked_service_monotone (A A' : abbreviations) (ls_name : string) :
  incl (LinkedService A) (LinkedService A') →
  ∃ errors errors',
    lint_linked_service A ls_name = Ret errors
    ∧ lint_linked_service A' ls_name = Ret errors'
    ∧ incl errors' errors.
Proof.
  intros Hincl. rewrite !lint_linked_service_str. do 2 eexists.
  split; [reflexivity|]. split; [reflexivity|].
  destruct (existsb (startswith ls_name) (LinkedService A)) eqn:HA.
  - apply existsb_exists in HA as (prefix & Hin%Hincl & Hprefix).
    assert (existsb (startswith ls_name) (LinkedService A') = true) as ->;
      [|apply incl_refl].
    apply existsb_exists. by exists prefix.
  - simpl. destruct (existsb _ (LinkedService A')); simpl; [|apply incl_refl].
    apply incl_appl, incl_refl.
Qed.

Lemma lint_linked_service_monotone_witness :
  ∃ errors errors',
    lint_linked_service {| LinkedService := ["ADLS"]; Dataset := [] |}
                        "LS_ADLS_LZ_ONPREMIR" = Ret errors
    ∧ lint_linked_service {| LinkedService := ["ADLS"; "LS_ADLS"]; Dataset := [] |}
                          "LS_ADLS_LZ_ONPREMIR" = Ret errors'
    ∧ incl errors' errors.
Proof.
  apply (lint_linked_service_monotone
           {| LinkedService := ["ADLS"]; Dataset := [] |}
           {| LinkedService := ["ADLS"; "LS_ADLS"]; Dataset := [] |}
           "LS_ADLS_LZ_ONPREMIR").
  intros prefix [<- | []]. by left.
Defined.

(** ** The trigger evaluator: the names it accepts *)

Lemma prefix_empty s : String.prefix EmptyString s = true.
Proof. by destruct s. Qed.

Lemma prefix_errors_frequency (frequency project pipeline : string) trigger_type :
  In frequency frequencies →
  prefix_errors (three_tokens frequency project pipeline) trigger_type = []
  ↔ In frequency (allowed_frequencies trigger_type).
Proof.
  intros Hin. unfold prefix_errors, allowed_frequencies.
  destruct (eq_str trigger_type "ScheduleTrigger") eqn:Hs.
  - assert (eq_str trigger_type "BlobEventsTrigger" = false) as ->.
    { destruct trigger_type; try done. simpl in *.
      apply String.eqb_eq in Hs as ->. reflexivity. }
    destruct Hin as [<- | [<- | [<- | [<- | [<- | []]]]]];
      unfold three_tokens, startswith_any, startswith; simpl;
      rewrite ?prefix_empty; simpl; intuition congruence.
  - destruct (eq_str trigger_type "BlobEventsTrigger") eqn:Hb; [|done].
    destruct Hin as [<- | [<- | [<- | [<- | [<- | []]]]]];
      unfold three_tokens, startswith_any, startswith; simpl;
      rewrite ?prefix_empty; simpl; intuition congruence.
Qed.

(** X6: with tokens 1 and -1 free of special characters, [lint_trigger]
    accepts exactly the names of three tokens whose first one is a
    frequency word allowed for the type of the trigger: not [File] for a
    [ScheduleTrigger], only [File] for a [BlobEventsTrigger], any of the
    five otherwise. *)
Theorem lint_trigger_accepts (A : abbreviations)
    (trigger_name project_name pipeline_name : string) (trigger_type : json) :
  index (split hyphen trigger_name) 1 = Ret project_name →
  index (split hyphen trigger_name) (-1) = Ret pipeline_name →
  plain project_name = true →
  plain pipeline_name = true →
  lint_trigger A trigger_name trigger_type = Ret []
  ↔ ∃ frequency,
      split hyphen trigger_name = [frequency; project_name; pipeline_name]
      ∧ In frequency (allowed_frequencies trigger_type).
Proof.
  intros Hproject Hpipeline Hp Hq.
  rewrite (lint_trigger_str A _ _ _ _ Hproject Hpipeline).
  rewrite (pattern_check _ _ _ Hproject Hpipeline Hp Hq), bind_Ret.
  unfold well_formed_trigger.
  destruct (split hyphen trigger_name) as [|f [|p [|q [|? ?]]]] eqn:Hsplit;
    cbn [negb];
    try (split; [by intros [= [_ [=]]%app_eq_nil] | by intros (? & [=] & _)]).
  change (Ret p = Ret project_name) in Hproject.
  change (Ret q = Ret pipeline_name) in Hpipeline.
  injection Hproject as ->. injection Hpipeline as ->.
  apply three_tokens_split in Hsplit as Hname.
  destruct (existsb (String.eqb f) frequencies) eqn:Hf.
  - apply in_frequencies in Hf. cbn [negb append_if]. rewrite Hname.
    split.
    + intros [= Hnone]. exists f. split; [done|]. by apply prefix_errors_frequency in Hnone.
    + intros (? & [= <-] & Hin). f_equal. by apply prefix_errors_frequency.
  - cbn [negb]. split; [by intros [= [_ [=]]%app_eq_nil]|].
    intros (? & [= <-] & Hin).
    assert (In f frequencies) as Hin'%in_frequencies; [|congruence].
    revert Hin. unfold allowed_frequencies.
    destruct (eq_str _ _); [|destruct (eq_str _ _)]; simpl; intuition.
Qed.

Lemma lint_trigger_accepts_witness :
  lint_trigger no_abbreviations "Daily-SAPBW-hilan" "ScheduleTrigger" = Ret []
  ↔ ∃ frequency,
      split hyphen "Daily-SAPBW-hilan" = [frequency; "SAPBW"; "hilan"]
      ∧ In frequency (allowed_frequencies "ScheduleTrigger").
Proof.
  apply (lint_trigger_accepts no_abbreviations "Daily-SAPBW-hilan" "SAPBW" "hilan"
           "ScheduleTrigger"); reflexivity.
Defined.

Lemma append_if_length cond msg errors :
  (length (append_if cond msg errors) ≤ S (length errors))%nat.
Proof. destruct cond; simpl; [rewrite length_app; simpl|]; lia. Qed.

Lemma prefix_checks_length (trigger_name : string) (trigger_type : json) :
  (length
     (append_if (eq_str trigger_type "BlobEventsTrigger"
                 && negb (startswith trigger_name "File-"))
                (msg_file trigger_name)
        (append_if (eq_str trigger_type "ScheduleTrigger"
                    && negb (startswith_any trigger_name
                               ["Daily-"; "Hourly-"; "Weekly-"; "Monthly-"]))
                   (msg_schedule trigger_name) [])) ≤ 1)%nat.
Proof.
  destruct (eq_str trigger_type "ScheduleTrigger") eqn:Hs.
  - assert (eq_str trigger_type "BlobEventsTrigger" = false) as ->.
    { destruct trigger_type; try done. simpl in *.
      apply String.eqb_eq in Hs as ->. reflexivity. }
    cbn [andb append_if]. apply (append_if_length _ _ []).
  - cbn [andb append_if]. apply (append_if_length _ _ []).
Qed.

(** X7: a trigger name without hyphen never reaches the pattern:
    whatever characters it holds, [lint_trigger] returns, with "not
    properly formatted" as the last violation and at most one violation
    before it. *)
Theorem lint_trigger_without_hyphen (A : abbreviations) (trigger_name : string)
    (trigger_type : json) :
  hyphen_free trigger_name = true →
  ∃ errors,
    lint_trigger A trigger_name trigger_type
    = Ret (errors ++ [msg_not_formatted trigger_name])%list
    ∧ (length errors ≤ 1)%nat.
Proof.
  intros Hfree. exists (prefix_errors trigger_name trigger_type).
  split; [by apply lint_trigger_one_token|]. apply prefix_checks_length.
Qed.

Lemma lint_trigger_without_hyphen_witness :
  ∃ errors,
    lint_trigger no_abbreviations "Daily(+" "ScheduleTrigger"
    = Ret (errors ++ [msg_not_formatted "Daily(+"])%list
    ∧ (length errors ≤ 1)%nat.
Proof.
  apply (lint_trigger_without_hyphen no_abbreviations "Daily(+" "ScheduleTrigger").
  reflexivity.
Defined.

(** ** The key-vault evaluator *)

(** X8: [lint_key_vault] compares the type without regard to case and
    never looks at the name: whatever the name is, it reports nothing
    exactly when the lowered type is [username], [password] or [url]. *)
Theorem lint_key_vault_accepts (A : abbreviations) (kv_name : json) (kv_type : string) :
  lint_key_vault A kv_name kv_type = Ret [] ↔ In (lower kv_type) secret_kinds.
Proof.
  unfold lint_key_vault, str_lower. rewrite bind_Ret.
  destruct (existsb (String.eqb (lower kv_type)) ["username"; "password"; "url"]) eqn:Hin.
  - split; [|done]. intros _.
    apply existsb_exists in Hin as (k & Hk & ->%String.eqb_eq). exact Hk.
  - cbn [negb]. split.
    + destruct (format kv_name); simpl; [|done..]. by intros [=[]%app_eq_nil].
    + intros Hk. assert (existsb (String.eqb (lower kv_type)) secret_kinds = true) as Hyes;
        [|unfold secret_kinds in Hyes; congruence].
      apply existsb_exists. exists (lower kv_type). by rewrite String.eqb_refl.
Qed.

(** ** The classifier: the four suffixes and the keys *)

Lemma suffix_comparable (r1 r2 a b : string) :
  r1 +:+ a = r2 +:+ b → endswith a b = true ∨ endswith b a = true.
Proof.
  revert r2. induction r1 as [|c r1 IH]; intros [|d r2] Heq.
  - left. apply endswith_iff. by exists EmptyString.
  - left. apply endswith_iff. by exists (String d r2).
  - right. apply endswith_iff. by exists (String c r1).
  - rewrite !append_cons in Heq. injection Heq as _ Heq. by apply (IH r2).
Qed.

Lemma arm_suffix_unique s a b ka kb :
  In (a, ka) arm_kinds → In (b, kb) arm_kinds →
  endswith s a = true → endswith s b = true → a = b.
Proof.
  intros Ha Hb [r1 Hr1]%endswith_iff [r2 Hr2]%endswith_iff.
  rewrite Hr1 in Hr2. apply suffix_comparable in Hr2.
  unfold arm_kinds in Ha, Hb. simpl in Ha, Hb.
  destruct Ha as [[= <- <-] | [[= <- <-] | [[= <- <-] | [[= <- <-] | []]]]];
    destruct Hb as [[= <- <-] | [[= <- <-] | [[= <- <-] | [[= <- <-] | []]]]];
    try reflexivity; by destruct Hr2.
Qed.

(** X9: the suffix of [type] decides alone. A document whose [type],
    in lower case, ends with one of the four suffixes is of the kind of
    that suffix, whatever else it holds: no text ends with two of them. *)
Theorem identify_arm_kind (doc : gmap string json) (t suffix : string)
    (kind : ADFResourceType) :
  doc !! "type" = Some (JStr t) →
  In (suffix, kind) arm_kinds →
  endswith (lower t) suffix = true →
  identify_adf_resource doc = Ret kind.
Proof.
  intros Htype Hin Hsuffix. unfold identify_adf_resource.
  rewrite Htype. cbn [default from_option id str_lower]. rewrite bind_Ret.
  assert (∀ b kb, In (b, kb) arm_kinds → b ≠ suffix → endswith (lower t) b = false)
    as Hother.
  { intros b kb Hb Hne. apply not_true_is_false. intros Hends. apply Hne.
    by apply (arm_suffix_unique (lower t) b suffix kb kind). }
  unfold arm_kinds in Hin. simpl in Hin.
  destruct Hin as [[= <- <-] | [[= <- <-] | [[= <- <-] | [[= <- <-] | []]]]].
  - by rewrite Hsuffix.
  - rewrite (Hother "/pipelines" PIPELINE), Hsuffix; [done| |done].
    unfold arm_kinds; simpl; auto.
  - rewrite (Hother "/pipelines" PIPELINE), (Hother "/datasets" DATASET), Hsuffix;
      [done| | | |]; try done; unfold arm_kinds; simpl; auto.
  - rewrite (Hother "/pipelines" PIPELINE), (Hother "/datasets" DATASET),
      (Hother "/linkedservices" LINKED_SERVICE), Hsuffix;
      [done| | | | | |]; try done; unfold arm_kinds; simpl; auto 6.
Qed.

Lemma identify_arm_kind_witness :
  identify_adf_resource
    {[ "type" := JStr "Microsoft.DataFactory/factories/Triggers";
       "properties" := JObj {[ "activities" := JArr [] ]} ]}
  = Ret TRIGGER.
Proof.
  apply (identify_arm_kind _ "Microsoft.DataFactory/factories/Triggers" "/triggers" TRIGGER).
  - reflexivity.
  - unfold arm_kinds. simpl. auto.
  - reflexivity.
Defined.

Lemma both_in_true a b props :
  both_in a b props = Ret true → key_in a props = Ret true ∧ key_in b props = Ret true.
Proof.
  unfold both_in. destruct (key_in a props) as [[|]| |]; simpl; try done.
Qed.

Lemma shape_marked (props : json) (kind : ADFResourceType) :
  (is_pipeline ← key_in "activities" props;
   if (is_pipeline : bool) then Ret PIPELINE
   else
     is_dataset ← both_in "typeProperties" "linkedServiceName" props;
     if (is_dataset : bool) then Ret DATASET
     else
       is_linked_service ← both_in "connectVia" "type" props;
       if (is_linked_service : bool) then Ret LINKED_SERVICE
       else
         is_trigger ← both_in "pipelines" "type" props;
         if (is_trigger : bool) then Ret TRIGGER
         else Ret UNKNOWN) = Ret kind →
  kind = UNKNOWN
  ∨ ∃ a b, In (a, b, kind) shape_keys
           ∧ key_in a props = Ret true ∧ key_in b props = Ret true.
Proof.
  destruct (key_in "activities" props) as [[|]| |] eqn:Ha; simpl; try discriminate.
  { intros [= <-]. right. exists "activities", "activities".
    unfold shape_keys; simpl; auto. }
  destruct (both_in "typeProperties" "linkedServiceName" props) as [[|]| |] eqn:Hd;
    simpl; try discriminate.
  { intros [= <-]. apply both_in_true in Hd as [? ?]. right.
    exists "typeProperties", "linkedServiceName". unfold shape_keys; simpl; auto. }
  destruct (both_in "connectVia" "type" props) as [[|]| |] eqn:Hl;
    simpl; try discriminate.
  { intros [= <-]. apply both_in_true in Hl as [? ?]. right.
    exists "connectVia", "type". unfold shape_keys; simpl; auto 6. }
  destruct (both_in "pipelines" "type" props) as [[|]| |] eqn:Ht;
    simpl; try discriminate.
  { intros [= <-]. apply both_in_true in Ht as [? ?]. right.
    exists "pipelines", "type". unfold shape_keys; simpl; auto 7. }
  intros [= <-]. by left.
Qed.

Lemma shape_marked_doc (doc : gmap string json) (kind : ADFResourceType) :
  (let props := default (JObj ∅) (doc !! "properties") in
   is_pipeline ← key_in "activities" props;
   if (is_pipeline : bool) then Ret PIPELINE
   else
     is_dataset ← both_in "typeProperties" "linkedServiceName" props;
     if (is_dataset : bool) then Ret DATASET
     else
       is_linked_service ← both_in "connectVia" "type" props;
       if (is_linked_service : bool) then Ret LINKED_SERVICE
       else
         is_trigger ← both_in "pipelines" "type" props;
         if (is_trigger : bool) then Ret TRIGGER
         else Ret UNKNOWN) = Ret kind →
  kind = UNKNOWN ∨ marked kind doc.
Proof.
  destruct (doc !! "properties") as [props|] eqn:Hprops; cbn [default from_option id].
  - intros [-> | (a & b & Hin & Ha & Hb)]%shape_marked; [by left|].
    right. right. by exists props, a, b.
  - intros [= <-]. by left.
Qed.

(** X10: the classifier never guesses. A kind other than Unknown is
    returned only for a document that carries the mark of that kind: its
    suffix at the end of [type], or its keys in [properties]. *)
Theorem identify_marked (doc : gmap string json) (kind : ADFResourceType) :
  identify_adf_resource doc = Ret kind →
  kind = UNKNOWN ∨ marked kind doc.
Proof.
  unfold identify_adf_resource.
  destruct (doc !! "type") as [[| | | |t| |]|] eqn:Htype;
    cbn [default from_option id str_lower]; try discriminate; rewrite bind_Ret.
  - destruct (endswith (lower t) "/pipelines") eqn:H1.
    { intros [= <-]. right. left. exists t, "/pipelines".
      unfold arm_kinds; simpl; auto. }
    destruct (endswith (lower t) "/datasets") eqn:H2.
    { intros [= <-]. right. left. exists t, "/datasets".
      unfold arm_kinds; simpl; auto. }
    destruct (endswith (lower t) "/linkedservices") eqn:H3.
    { intros [= <-]. right. left. exists t, "/linkedservices".
      unfold arm_kinds; simpl; auto 6. }
    destruct (endswith (lower t) "/triggers") eqn:H4.
    { intros [= <-]. right. left. exists t, "/triggers".
      unfold arm_kinds; simpl; auto 7. }
    apply shape_marked_doc.
  - change (endswith (lower EmptyString) "/pipelines") with false.
    change (endswith (lower EmptyString) "/datasets") with false.
    change (endswith (lower EmptyString) "/linkedservices") with false.
    change (endswith (lower EmptyString) "/triggers") with false. cbv iota.
    apply shape_marked_doc.
Qed.

Lemma identify_marked_witness :
  TRIGGER = UNKNOWN ∨ marked TRIGGER doc_raw_trigger.
Proof. apply (identify_marked doc_raw_trigger TRIGGER). reflexivity. Defined.

(** ** The dispatcher on the documents it can handle *)

Lemma lint_linked_service_returns A (ls_name : json) errors :
  lint_linked_service A ls_name = Ret errors →
  (∃ s, ls_name = JStr s) ∧ (length errors ≤ 2)%nat.
Proof.
  destruct ls_name as [| | | |s| |]; try discriminate.
  rewrite lint_linked_service_str. intros [= <-]. split; [by exists s|].
  destruct (existsb _ _), (startswith s "LS_"); simpl; lia.
Qed.

Lemma lint_pipeline_returns A (pipeline_name : json) errors :
  lint_pipeline A pipeline_name = Ret errors →
  (∃ s, pipeline_name = JStr s) ∧ (length errors ≤ 1)%nat.
Proof.
  destruct pipeline_name as [| | | |s| |];
    try (unfold lint_pipeline; rewrite compile_master; discriminate).
  rewrite lint_pipeline_str. intros [= <-]. split; [by exists s|].
  apply pipeline_errors_length.
Qed.

Lemma lint_dataset_hashable A (ds_name : string) (dataset_type : json) :
  hashable dataset_type = true →
  ∃ errors, lint_dataset A ds_name dataset_type = Ret errors ∧ (length errors ≤ 3)%nat.
Proof.
  intros Hhash. unfold lint_dataset.
  assert (∃ expected, dict_get FORMAT_MAPPING dataset_type = Ret expected) as [expected ->]
    by (destruct dataset_type; try discriminate; by eexists).
  rewrite bind_Ret, match_detail, bind_Ret. eexists. split; [reflexivity|].
  etrans; [apply append_if_length|]. apply le_n_S.
  destruct expected as [expected|].
  - etrans; [apply append_if_length|]. apply le_n_S. apply append_if_length.
  - etrans; [apply append_if_length|]. simpl. lia.
Qed.

Lemma lint_dataset_returns A (ds_name dataset_type : json) errors :
  lint_dataset A ds_name dataset_type = Ret errors →
  (∃ s, ds_name = JStr s) ∧ hashable dataset_type = true ∧ (length errors ≤ 3)%nat.
Proof.
  destruct ds_name as [| | | |s| |]; try discriminate. intros Hret.
  split; [by exists s|].
  destruct (hashable dataset_type) eqn:Hhash.
  - split; [done|].
    destruct (lint_dataset_hashable A s dataset_type Hhash) as (errors' & Heq & Hlen).
    congruence.
  - by destruct dataset_type.
Qed.

Lemma lint_trigger_returns A (trigger_name trigger_type : json) errors :
  lint_trigger A trigger_name trigger_type = Ret errors →
  (∃ s, trigger_name = JStr s) ∧ (length errors ≤ 2)%nat.
Proof.
  destruct trigger_name as [| | | |s| |]; try discriminate. intros Hret.
  split; [by exists s|]. revert Hret. unfold lint_trigger.
  pose proof (prefix_checks_length s trigger_type) as Hlen. cbv zeta.
  match type of Hlen with (length ?e ≤ 1)%nat => generalize dependent e end.
  intros errs Hlen.
  destruct (index (split "-" s) 1) as [project_name|e|]; simpl;
    [|destruct e; try discriminate; intros [= <-]; rewrite length_app; simpl; lia
     |discriminate].
  destruct (index (split "-" s) (-1)) as [pipeline_name|e|]; simpl;
    [|destruct e; try discriminate; intros [= <-]; rewrite length_app; simpl; lia
     |discriminate].
  destruct (re.match_ _ s) as [m| |]; simpl; try discriminate.
  intros [= <-]. etrans; [apply append_if_length|]. lia.
Qed.

Lemma dispatch_returns A kind doc errors :
  dispatch A kind doc = Ret errors →
  dispatchable kind doc = true ∧ (length errors ≤ 3)%nat.
Proof.
  unfold dispatch, dispatchable, getitem, is_str, has_key. destruct kind.
  - destruct (doc !! "name") as [name|]; simpl; [|discriminate].
    intros [[s ->] Hlen]%lint_pipeline_returns. split; [done|lia].
  - destruct (doc !! "name") as [name|]; simpl; [|discriminate].
    destruct (doc !! "properties") as [[| | | | | |m]|]; simpl; try discriminate.
    unfold getitem.
    destruct (m !! "type") as [dataset_type|]; simpl; [|discriminate].
    intros ([s ->] & -> & Hlen)%lint_dataset_returns. by split.
  - destruct (doc !! "name") as [name|]; simpl; [|discriminate].
    intros [[s ->] Hlen]%lint_linked_service_returns. split; [done|lia].
  - destruct (doc !! "name") as [name|]; simpl; [|discriminate].
    destruct (doc !! "properties") as [[| | | | | |m]|]; simpl; try discriminate.
    unfold getitem.
    destruct (m !! "type") as [trigger_type|] eqn:Htype; simpl; [|discriminate].
    intros [[s ->] Hlen]%lint_trigger_returns. split; [done|lia].
  - destruct (format _); simpl; try discriminate. intros [= <-]. split; [done|simpl; lia].
Qed.

(** X11: [lint_resource] returns only on the documents it can handle.
    When it returns violations, the document was classified, its [name] is
    a string unless the kind is Unknown, and for a Dataset or a Trigger
    its [properties] is a dict that holds a [type]. *)
Theorem lint_resource_returns (A : abbreviations) (doc : gmap string json)
    (errors : list string) :
  (lint_resource A doc).2 = Ret errors →
  ∃ kind, identify_adf_resource doc = Ret kind ∧ dispatchable kind doc = true.
Proof.
  unfold lint_resource.
  destruct (identify_adf_resource doc) as [kind|e|]; simpl; try discriminate.
  intros [Hok _]%dispatch_returns. by exists kind.
Qed.

Lemma lint_resource_returns_witness :
  ∃ kind, identify_adf_resource doc_raw_trigger = Ret kind
          ∧ dispatchable kind doc_raw_trigger = true.
Proof.
  apply (lint_resource_returns no_abbreviations doc_raw_trigger []). reflexivity.
Defined.

(** X12: on a Pipeline, a Dataset or a LinkedService that holds these
    fields, [lint_resource] does return: it prints the kind and hands back
    a list of violations, whatever the name is. *)
Theorem lint_resource_handles (A : abbreviations) (doc : gmap string json)
    (kind : ADFResourceType) :
  identify_adf_resource doc = Ret kind →
  In kind [PIPELINE; DATASET; LINKED_SERVICE] →
  dispatchable kind doc = true →
  ∃ errors, lint_resource A doc = ([ADFResourceType_str kind], Ret errors).
Proof.
  intros Hkind Hin Hok. unfold lint_resource. rewrite Hkind.
  revert Hok. unfold dispatch, dispatchable, getitem, is_str.
  destruct Hin as [<- | [<- | [<- | []]]].
  - destruct (doc !! "name") as [[| | | |s| |]|]; try discriminate. intros _.
    rewrite bind_Ret, lint_pipeline_str. by eexists.
  - destruct (doc !! "name") as [[| | | |s| |]|]; try discriminate.
    destruct (doc !! "properties") as [[| | | | | |m]|]; try discriminate.
    destruct (m !! "type") as [dataset_type|] eqn:Htype; try discriminate.
    cbn [andb]. intros Hhash. rewrite !bind_Ret. cbn [subscript]. unfold getitem.
    rewrite Htype, bind_Ret.
    destruct (lint_dataset_hashable A s dataset_type Hhash) as (errors & -> & _).
    by exists errors.
  - destruct (doc !! "name") as [[| | | |s| |]|]; try discriminate. intros _.
    rewrite bind_Ret, lint_linked_service_str. by eexists.
Qed.

Lemma lint_resource_handles_witness :
  ∃ errors,
    lint_resource no_abbreviations
      {[ "name" := JStr "DS_SQL_CUSTOMERS_CSV";
         "type" := JStr "Microsoft.DataFactory/factories/datasets";
         "properties" := JObj {[ "type" := JNull ]} ]}
    = ([ADFResourceType_str DATASET], Ret errors).
Proof.
  apply (lint_resource_handles no_abbreviations _ DATASET).
  - reflexivity.
  - simpl. auto.
  - reflexivity.
Defined.

(** X13: a call of [lint_resource] that returns has printed one line,
    the kind, and hands back at most three violations. *)
Theorem lint_resource_bound (A : abbreviations) (doc : gmap string json)
    (errors : list string) :
  (lint_resource A doc).2 = Ret errors →
  (length errors ≤ 3)%nat
  ∧ ∃ kind, (lint_resource A doc).1 = [ADFResourceType_str kind].
Proof.
  unfold lint_resource.
  destruct (identify_adf_resource doc) as [kind|e|]; simpl; try discriminate.
  intros [_ Hlen]%dispatch_returns. split; [done|]. by exists kind.
Qed.

Lemma lint_resource_bound_witness :
  (length [msg_ds_prefix; msg_ds_suffix "ds_sql_customers" "CSV";
           msg_ds_detail EmptyString] ≤ 3)%nat
  ∧ ∃ kind,
      (lint_resource no_abbreviations
         {[ "name" := JStr "ds_sql_customers";
            "type" := JStr "Microsoft.DataFactory/factories/datasets";
            "properties" := JObj {[ "type" := JStr "DelimitedText" ]} ]}).1
      = [ADFResourceType_str kind].
Proof.
  apply (lint_resource_bound no_abbreviations
           {[ "name" := JStr "ds_sql_customers";
              "type" := JStr "Microsoft.DataFactory/factories/datasets";
              "properties" := JObj {[ "type" := JStr "DelimitedText" ]} ]}).
  vm_compute. reflexivity.
Defined.

(** X14: a document without any of the expected fields is never
    linted by an evaluator: the one violation names it Unknown, by its
    [name], or by [N/A] when it has none. *)
Theorem lint_unknown_document (A : abbreviations) (doc : gmap string json) (n : string) :
  no_expected_field doc = true →
  format (default (JStr "N/A") (doc !! "name")) = Ret n →
  lint_resource A doc = (["ADFResourceType.UNKNOWN"], Ret [msg_unknown n]).
Proof.
  intros Hkind%identify_no_expected_field Hname.
  unfold lint_resource, dispatch. by rewrite Hkind, Hname.
Qed.

Lemma lint_unknown_document_witness :
  lint_resource no_abbreviations {[ "id" := JInt 7 ]}
  = (["ADFResourceType.UNKNOWN"], Ret [msg_unknown "N/A"]).
Proof.
  apply (lint_unknown_document no_abbreviations {[ "id" := JInt 7 ]} "N/A");
    vm_compute; reflexivity.
Defined.

(** ** Loading the abbreviations *)

Lemma comprehension_gives l table :
  Forall2 gives l table →
  comprehension l = Ret (JStr <$> table) ∧ strings (JStr <$> table) = Some table.
Proof.
  induction 1 as [|entry a l table Hentry _ [IH1 IH2]]; [done|].
  cbn [comprehension fmap list_fmap strings]. unfold gives in Hentry.
  rewrite Hentry, bind_Ret, IH1, bind_Ret. split; [done|].
  change (list_fmap string json JStr table) with (JStr <$> table).
  by rewrite IH2.
Qed.

Lemma strings_inv l table : strings l = Some table → l = JStr <$> table.
Proof.
  revert table. induction l as [|v l IH]; intros table; [by intros [= <-]|].
  destruct v as [| | | |s| |]; try discriminate. cbn [strings].
  destruct (strings l) as [rest|]; [|discriminate]. intros [= <-].
  by rewrite (IH rest).
Qed.

Lemma comprehension_inv l table :
  comprehension l = Ret (JStr <$> table) → Forall2 gives l table.
Proof.
  revert table. induction l as [|entry l IH]; intros table.
  - destruct table; [constructor|discriminate].
  - cbn [comprehension].
    destruct (subscript entry "Abbreviation") as [a| |] eqn:Hentry; try discriminate.
    rewrite bind_Ret. destruct (comprehension l) as [rest| |]; try discriminate.
    rewrite bind_Ret. destruct table as [|b table]; [discriminate|].
    intros [= -> ->]. constructor; [done|]. by apply IH.
Qed.

Lemma abbreviations_of_gives entries table :
  gives_all entries table →
  abbreviations_of entries = Ret (JStr <$> table)
  ∧ strings (JStr <$> table) = Some table.
Proof.
  destruct entries as [| | | |s|l|m]; try done.
  - by intros [-> ->].
  - apply comprehension_gives.
  - intros [-> ->]. unfold abbreviations_of. by rewrite map_to_list_empty.
Qed.

Lemma abbreviations_of_inv entries table :
  abbreviations_of entries = Ret (JStr <$> table) → gives_all entries table.
Proof.
  destruct entries as [| | | |s|l|m]; try discriminate.
  - destruct s; [|discriminate]. destruct table; [done|discriminate].
  - apply comprehension_inv.
  - unfold abbreviations_of. destruct (map_to_list m) as [|? ?] eqn:Hm; [|discriminate].
    apply map_to_list_empty_iff in Hm as ->. destruct table; [done|discriminate].
Qed.

Lemma load_ABBREVIATIONS_iff (abbreviation : json) (table : abbreviations) :
  load_ABBREVIATIONS abbreviation = Ret table
  ↔ ∃ top linked_service dataset,
      abbreviation = JObj top
      ∧ top !! "LinkedService" = Some linked_service
      ∧ top !! "Dataset" = Some dataset
      ∧ gives_all linked_service (LinkedService table)
      ∧ gives_all dataset (Dataset table).
Proof.
  unfold load_ABBREVIATIONS. split.
  - destruct abbreviation as [| | | | | |top]; try discriminate.
    cbn [subscript]. unfold getitem.
    destruct (top !! "LinkedService") as [linked_service|] eqn:Hl; [|discriminate].
    rewrite bind_Ret.
    destruct (abbreviations_of linked_service) as [ls| |] eqn:Hls; try discriminate.
    rewrite bind_Ret.
    destruct (top !! "Dataset") as [dataset|] eqn:Hd; [|discriminate].
    rewrite bind_Ret.
    destruct (abbreviations_of dataset) as [ds| |] eqn:Hds; try discriminate.
    rewrite bind_Ret.
    destruct (strings ls) as [ls'|] eqn:Hls'; [|discriminate].
    destruct (strings ds) as [ds'|] eqn:Hds'; [|discriminate].
    intros [= <-]. apply strings_inv in Hls' as ->. apply strings_inv in Hds' as ->.
    exists top, linked_service, dataset.
    split; [done|]. split; [done|]. split; [done|].
    split; by apply abbreviations_of_inv.
  - intros (top & linked_service & dataset & -> & Hls & Hds & Hl & Hd).
    cbn [subscript]. unfold getitem. rewrite Hls, Hds, !bind_Ret.
    apply abbreviations_of_gives in Hl as [Hl1 Hl2].
    apply abbreviations_of_gives in Hd as [Hd1 Hd2].
    rewrite Hl1, !bind_Ret, Hd1, !bind_Ret, Hl2, Hd2. by destruct table.
Qed.

(** X15: the module loads exactly from the files that are a dict whose
    [LinkedService] and [Dataset] are lists of entries with an
    [Abbreviation] (or empty), and the table then holds the abbreviation
    of each entry, in the order of the file: nothing else of the file is
    read. *)
Theorem load_ABBREVIATIONS_returns (abbreviation : json) (table : abbreviations) :
  load_ABBREVIATIONS abbreviation = Ret table
  ↔ ∃ top linked_service dataset,
      abbreviation = JObj top
      ∧ top !! "LinkedService" = Some linked_service
      ∧ top !! "Dataset" = Some dataset
      ∧ gives_all linked_service (LinkedService table)
      ∧ gives_all dataset (Dataset table).
Proof. apply load_ABBREVIATIONS_iff. Qed.

Lemma gives_entry_of table : Forall2 gives (entry_of <$> table) table.
Proof. induction table; constructor; [reflexivity|done]. Qed.

(** X16: writing a table to a file and loading it gives the table
    back, with its order and its repetitions. *)
Theorem load_ABBREVIATIONS_file_of (table : abbreviations) :
  load_ABBREVIATIONS (file_of table) = Ret table.
Proof.
  apply load_ABBREVIATIONS_iff. unfold file_of. do 3 eexists.
  split; [reflexivity|]. split; [reflexivity|]. split; [reflexivity|].
  split; apply gives_entry_of.
Qed.

Lemma comprehension_raises l entry :
  In entry l → raises (subscript entry "Abbreviation") → raises (comprehension l).
Proof.
  intros Hin Hentry. induction l as [|x l IH]; [done|]. cbn [comprehension].
  destruct (subscript x "Abbreviation") as [a|e|] eqn:Hx.
  - rewrite bind_Ret. destruct Hin as [-> | Hin].
    + destruct Hentry as [e He]. congruence.
    + destruct (IH Hin) as [e ->]. by exists e.
  - by exists e.
  - by destruct x as [| | | | | |m]; [..|simpl in Hx; unfold getitem in Hx;
                                        destruct (m !! "Abbreviation")].
Qed.

(** X17: one entry without [Abbreviation], or one that is not a dict,
    anywhere in the first list makes the load raise: no table is built,
    whatever the other entries and the second list are. *)
Theorem load_ABBREVIATIONS_bad_entry (top : gmap string json) (l : list json)
    (entry : json) :
  top !! "LinkedService" = Some (JArr l) →
  In entry l →
  raises (subscript entry "Abbreviation") →
  raises (load_ABBREVIATIONS (JObj top)).
Proof.
  intros Hls Hin Hentry. unfold load_ABBREVIATIONS. cbn [subscript]. unfold getitem.
  rewrite Hls, bind_Ret. cbn [abbreviations_of].
  destruct (comprehension_raises l entry Hin Hentry) as [e ->]. by exists e.
Qed.

Lemma load_ABBREVIATIONS_bad_entry_witness :
  raises (load_ABBREVIATIONS
            (JObj {[ "LinkedService" := JArr [entry_of "ADLS"; JObj {[ "System" := JStr "SQL" ]}];
                     "Dataset" := JArr [] ]})).
Proof.
  apply (load_ABBREVIATIONS_bad_entry _ [entry_of "ADLS"; JObj {[ "System" := JStr "SQL" ]}]
           (JObj {[ "System" := JStr "SQL" ]})).
  - reflexivity.
  - simpl. auto.
  - exists KeyError. reflexivity.
Defined.

(** ** The batch run *)

Lemma error_lines_length i errors : length (error_lines i errors) = length errors.
Proof. revert i. induction errors as [|e errors IH]; intros i; simpl; [done|]. by rewrite IH. Qed.

Lemma loop_body_returns A file out n :
  loop_body A file = (out, Ret n) →
  ∃ errors, linted A file errors ∧ n = length errors
            ∧ length out = (5 + length errors)%nat.
Proof.
  destruct file as [pipeline resource_json]. unfold loop_body, linted, lint_resource.
  destruct resource_json as [| | | | | |doc]; try discriminate.
  destruct (identify_adf_resource doc) as [kind| |] eqn:Hkind; try discriminate.
  destruct (dispatch A kind doc) as [errors| |] eqn:Hdispatch; try discriminate.
  intros [= <- <-]. exists errors. split.
  { exists doc. split; [done|]. by rewrite Hkind. }
  split; [done|]. cbn [app length]. rewrite length_app, error_lines_length. simpl. lia.
Qed.

Lemma loop_body_linted A file errors :
  linted A file errors → ∃ out, loop_body A file = (out, Ret (length errors)).
Proof.
  destruct file as [pipeline resource_json]. intros (doc & Hdoc & Hret).
  simpl in Hdoc. subst. revert Hret. unfold loop_body, lint_resource.
  destruct (identify_adf_resource doc) as [kind| |]; try discriminate.
  simpl. intros ->. by eexists.
Qed.

Lemma loop_body_fails A file e :
  fails A file e → ∃ out, loop_body A file = (out, Raise e).
Proof.
  destruct file as [pipeline resource_json]. intros (doc & Hdoc & Hret).
  simpl in Hdoc. subst. revert Hret. unfold loop_body, lint_resource.
  destruct (identify_adf_resource doc) as [kind| |]; try discriminate.
  - simpl. intros ->. by eexists.
  - simpl. intros [= ->]. by eexists.
Qed.

Lemma loop_returns A files total_counter out total :
  loop A files total_counter = (out, Ret total) →
  ∃ results,
    Forall2 (linted A) files results
    ∧ total = (total_counter + length (concat results))%nat
    ∧ length out = (5 * length files + length (concat results))%nat.
Proof.
  revert total_counter out. induction files as [|file files IH]; intros total_counter out.
  - intros [= <- <-]. exists []. split; [constructor|]. simpl. split; lia.
  - cbn [loop]. destruct (loop_body A file) as [out1 [n| |]] eqn:Hbody; try discriminate.
    destruct (loop A files (total_counter + n)) as [out2 result2] eqn:Hloop.
    intros [= <- ->].
    apply loop_body_returns in Hbody as (errors & Hlinted & -> & Hlen1).
    apply IH in Hloop as (results & Hall & -> & Hlen2).
    exists (errors :: results). split; [by constructor|].
    rewrite length_app. cbn [concat length]. rewrite length_app. split; lia.
Qed.

Lemma linted_bound A files results :
  Forall2 (linted A) files results →
  (length (concat results) ≤ 3 * length files)%nat.
Proof.
  induction 1 as [|file errors files results (doc & _ & Hret) _ IH]; [simpl; lia|].
  cbn [concat length]. rewrite length_app.
  assert (length errors ≤ 3)%nat; [|lia].
  revert Hret. unfold lint_resource.
  destruct (identify_adf_resource doc) as [kind| |]; simpl; try discriminate.
  by intros [_ ?]%dispatch_returns.
Qed.

(** X18: a run that comes to its end has linted every file. Its last
    line gives the number of all the violations found, at most three for
    each file, and it has printed two lines, five lines for each file and
    one line for each violation. *)
Theorem main_total (A : abbreviations) (files : list (string * json))
    (out : list string) :
  main A files = (out, Ret ()) →
  ∃ results,
    Forall2 (linted A) files results
    ∧ last out = Some (total_line (length (concat results)))
    ∧ (length (concat results) ≤ 3 * length files)%nat
    ∧ length out = (2 + 5 * length files + length (concat results))%nat.
Proof.
  unfold main. destruct (loop A files 0) as [out' [total| |]] eqn:Hloop; try discriminate.
  intros [= <-]. apply loop_returns in Hloop as (results & Hall & -> & Hlen).
  exists results. split; [done|]. split; [|split].
  - cbn [Nat.add]. rewrite app_comm_cons. apply last_snoc.
  - exact (linted_bound A files results Hall).
  - cbn [length]. rewrite length_app. simpl. lia.
Qed.

Lemma main_total_witness :
  ∃ results,
    Forall2 (linted no_abbreviations)
      [("a.json", JObj {[ "name" := JStr "001_00_Master_Load";
                          "properties" := JObj {[ "activities" := JArr [] ]} ]});
       ("b.json", JObj {[ "name" := JStr "load" ;
                          "properties" := JObj {[ "activities" := JArr [] ]} ]})]
      results
    ∧ last [separator;
            "Processing pipeline: a.json"; "Type: ADFResourceType.PIPELINE";
            "ADFResourceType.PIPELINE"; "Errors found: 0"; separator;
            "Processing pipeline: b.json"; "Type: ADFResourceType.PIPELINE";
            "ADFResourceType.PIPELINE"; "Errors found: 1";
            "Error 1: " +:+ msg_pipeline "load"; separator;
            "Total errors found so far: 1"]
      = Some (total_line (length (concat results)))
    ∧ (length (concat results) ≤ 3 * 2)%nat
    ∧ 13%nat = (2 + 5 * 2 + length (concat results))%nat.
Proof.
  apply (main_total no_abbreviations
           [("a.json", JObj {[ "name" := JStr "001_00_Master_Load";
                               "properties" := JObj {[ "activities" := JArr [] ]} ]});
            ("b.json", JObj {[ "name" := JStr "load" ;
                               "properties" := JObj {[ "activities" := JArr [] ]} ]})]).
  vm_compute. reflexivity.
Defined.

Lemma loop_app_fails A before file rest e total_counter :
  Forall (λ f, ∃ errors, linted A f errors) before →
  fails A file e →
  loop A (before ++ file :: rest) total_counter
  = loop A (before ++ [file]) total_counter
  ∧ (loop A (before ++ file :: rest) total_counter).2 = Raise e.
Proof.
  intros Hbefore Hfile. revert total_counter.
  induction Hbefore as [|f before [errors Hf] _ IH]; intros total_counter.
  - destruct (loop_body_fails A file e Hfile) as [out Hout].
    cbn [app loop]. by rewrite Hout.
  - destruct (loop_body_linted A f errors Hf) as [out Hout].
    cbn [app loop]. change ((f :: before) ++ [file])%list with (f :: (before ++ [file]))%list.
    cbn [loop]. rewrite Hout.
    destruct (IH (total_counter + length errors)%nat) as [-> Hraise].
    destruct (loop A (before ++ [file]) (total_counter + length errors)) as [out' r].
    split; [done|]. exact Hraise.
Qed.

(** X19: the run ends at the first file that makes [lint_resource]
    raise: the exception leaves the script, the files behind it are
    neither read nor reported, and no total is printed. *)
Theorem main_stops (A : abbreviations) (before rest : list (string * json))
    (file : string * json) (e : exn) :
  Forall (λ f, ∃ errors, linted A f errors) before →
  fails A file e →
  main A (before ++ file :: rest) = main A (before ++ [file])
  ∧ (main A (before ++ file :: rest)).2 = Raise e.
Proof.
  intros Hbefore Hfile. unfold main.
  destruct (loop_app_fails A before file rest e 0%nat Hbefore Hfile) as [-> Hraise].
  destruct (loop A (before ++ [file]) 0) as [out r]. simpl in Hraise. by subst.
Qed.

Lemma main_stops_witness :
  main no_abbreviations
    ([("a.json", JObj {[ "name" := JStr "001_00_Master_Load";
                         "properties" := JObj {[ "activities" := JArr [] ]} ]})]
     ++ ("b.json", JObj doc_pipeline_without_name)
     :: [("c.json", JObj doc_raw_trigger)])
  = main no_abbreviations
      ([("a.json", JObj {[ "name" := JStr "001_00_Master_Load";
                           "properties" := JObj {[ "activities" := JArr [] ]} ]})]
       ++ [("b.json", JObj doc_pipeline_without_name)])
  ∧ (main no_abbreviations
       ([("a.json", JObj {[ "name" := JStr "001_00_Master_Load";
                            "properties" := JObj {[ "activities" := JArr [] ]} ]})]
        ++ ("b.json", JObj doc_pipeline_without_name)
        :: [("c.json", JObj doc_raw_trigger)])).2 = Raise KeyError.
Proof.
  apply (main_stops no_abbreviations
           [("a.json", JObj {[ "name" := JStr "001_00_Master_Load";
                               "properties" := JObj {[ "activities" := JArr [] ]} ]})]
           [("c.json", JObj doc_raw_trigger)]
           ("b.json", JObj doc_pipeline_without_name) KeyError).
  - constructor; [|constructor]. exists []. eexists. split; reflexivity.
  - eexists. split; reflexivity.
Defined.
